(** * ResoMaxAI: scripts/convert_to_coreml2.py

    A shallow embedding of the conversion script: the checkpoint layout
    selection, the [RGBWrapper] module with its channel reindexing, and the
    straight-line pipeline (load, wrap, trace, convert, save) run in a
    state-and-exception monad over an explicit world (files, generator,
    operating-system random source, environment, standard output) with the
    log of library calls as ghost state.

    The third-party libraries (torch, coremltools, realesrgan) are not part
    of the repository.  What they compute is left abstract (section
    variables), and so is the interpreter's encoding of text for standard
    output; what the script hands to them and in which order is modelled
    from the source. *)

From stdpp Require Import gmap strings list fin_maps.
From Stdlib Require Import Floats.

Set Warnings "-register-all".

(** ** Python exceptions and results *)

Inductive Exn :=
| IndexError
| KeyError (key : string)
| TypeError
| RuntimeError (msg : string)
| FileNotFoundError (path : string)
| UnicodeEncodeError
| LibraryError (origin : string).

Definition result (A : Type) : Type := Exn + A.

Abbreviation ok a := (@inr Exn _ a).
Abbreviation raise e := (@inl Exn _ e).

Definition result_bind {A B} (r : result A) (k : A -> result B) : result B :=
  match r with
  | inl e => inl e
  | inr a => k a
  end.

(** [mapR f l] applies [f] to the elements from left to right and stops at
    the first exception. *)
Fixpoint mapR {A B} (f : A -> result B) (l : list A) : result (list B) :=
  match l with
  | [] => ok []
  | a :: l' =>
      result_bind (f a) (fun b =>
      result_bind (mapR f l') (fun bs => ok (b :: bs)))
  end.

(** ** Tensors

    A batch of images in NCHW layout is a four-fold nested list: batch,
    channel, row, column.  The element type (float32 in the script) is a
    parameter: the script only moves elements around. *)

Abbreviation tensor4 A := (list (list (list (list A)))).

(** [has_shape (n, c, h, w) x]: x is rectangular with these dimensions. *)
Definition has_shape {A} (s : nat * nat * nat * nat) (x : tensor4 A) : Prop :=
  let '(n, c, h, w) := s in
  length x = n /\
  Forall (fun img : list (list (list A)) =>
    length img = c /\
    Forall (fun pl : list (list A) =>
      length pl = h /\ Forall (fun row : list A => length row = w) pl) img) x.

(** [x.shape], read off the first element along each dimension. *)
Definition shape_of {A} (x : tensor4 A) : nat * nat * nat * nat :=
  let img := hd [] x in
  let pl := hd [] img in
  let row := hd [] pl in
  (length x, length img, length pl, length row).

(** The element at [(b, c, h, w)], [None] out of range. *)
Definition at4 {A} (x : tensor4 A) (b c h w : nat) : option A :=
  match x !! b with
  | Some img =>
      match img !! c with
      | Some pl =>
          match pl !! h with
          | Some row => row !! w
          | None => None
          end
      | None => None
      end
  | None => None
  end.

Definition channels {A} (c : nat) (x : tensor4 A) : Prop :=
  Forall (fun img : list (list (list A)) => length img = c) x.

(** ** Indexing [x[:, idx, :, :]]

    An index list on the channel dimension gathers, for every batch entry,
    the listed channels in the listed order; an index past the channel count
    raises [IndexError].  [.contiguous()] changes the memory layout only. *)

Definition gather {A} (idx : list nat) (img : list A) : result (list A) :=
  mapR (fun i => match img !! i with
                 | Some ch => ok ch
                 | None => raise IndexError
                 end) idx.

Definition getitem_channels {A} (x : tensor4 A) (idx : list nat) : result (tensor4 A) :=
  mapR (gather idx) x.

Definition contiguous {A} (x : tensor4 A) : tensor4 A := x.

(** The permutation the wrapper applies on both sides of the base model. *)
Definition permute_210 {A} (x : tensor4 A) : result (tensor4 A) :=
  getitem_channels x [2; 1; 0].

(** Exchange of the first and the third of three channels, written out. *)
Definition swap13 {A} (x : tensor4 A) : tensor4 A :=
  map (fun img : list (list (list A)) =>
         match img with
         | [c0; c1; c2] => [c2; c1; c0]
         | _ => img
         end) x.

(** ** Checkpoints, modules and conversion arguments *)

Abbreviation bytes := (list Byte.byte).

(** A parameter tensor of any rank: its shape and its elements, row-major. *)
Record weight (A : Type) := mkWeight { wshape : list nat; wdata : list A }.
Arguments mkWeight {A} _ _.
Arguments wshape {A} _.
Arguments wdata {A} _.

(** What a checkpoint mapping may hold under a key. *)
Inductive pyval (A : Type) :=
| VTensor (t : weight A)
| VInt (n : Z)
| VDict (d : gmap string (pyval A)).
Arguments VTensor {A} _.
Arguments VInt {A} _.
Arguments VDict {A} _.

(** The keyword arguments of [SRVGGNetCompact(...)]. *)
Record ArchCfg := mkArchCfg {
  num_in_ch : nat; num_out_ch : nat; num_feat : nat; num_conv : nat;
  upscale : nat; act_type : string }.

(** A module instance: its named parameters and its training flag. *)
Record Net (A : Type) := mkNet { params : gmap string (weight A); training : bool }.
Arguments mkNet {A} _ _.
Arguments params {A} _.
Arguments training {A} _.

(** [class RGBWrapper(torch.nn.Module)]: [__init__] stores the base model. *)
Record RGBWrapper (A : Type) := mkRGBWrapper { self_model : Net A }.
Arguments mkRGBWrapper {A} _.
Arguments self_model {A} _.

(** The result of tracing: the module, the example it ran on, what it gave. *)
Record Traced (A : Type) := mkTraced {
  traced_module : RGBWrapper A;
  traced_example : tensor4 A;
  traced_output : tensor4 A }.
Arguments mkTraced {A} _ _ _.
Arguments traced_module {A} _.
Arguments traced_example {A} _.
Arguments traced_output {A} _.

Inductive dtype := np_float16 | np_float32 | np_int32.

Inductive ComputeUnit := ALL | CPU_ONLY | CPU_AND_GPU | CPU_AND_NE.

(** [ct.ImageType(...)] and [ct.TensorType(...)] descriptions. *)
Inductive IOType :=
| ImageType (name : string) (shape : nat * nat * nat * nat) (scale : float)
            (bias : list Z) (color_layout : string)
| TensorType (name : string) (dt : dtype).

Record ConvertArgs := mkConvertArgs {
  inputs : list IOType;
  outputs : list IOType;
  compute_units : ComputeUnit }.

(** ** The world the script runs in *)

(** Library calls.  The world keeps them in the order in which they return
    or raise, each with the exception it raised, if any. *)
Inductive Call (A MLModel : Type) :=
| CallSRVGGNetCompact (cfg : ArchCfg)
| CallTorchLoad (path : string) (map_location : string)
| CallLoadStateDict (state_dict : pyval A) (strict : bool)
| CallEval
| CallRand (shape : nat * nat * nat * nat)
| CallJitTrace (m : RGBWrapper A) (example : tensor4 A)
| CallModel (x : tensor4 A)
| CallForward (x : tensor4 A)
| CallConvert (t : Traced A) (args : ConvertArgs)
| CallSave (m : MLModel) (path : string)
| CallPrint (line : string).
Arguments CallSRVGGNetCompact {A MLModel} _.
Arguments CallTorchLoad {A MLModel} _ _.
Arguments CallLoadStateDict {A MLModel} _ _.
Arguments CallEval {A MLModel}.
Arguments CallRand {A MLModel} _.
Arguments CallJitTrace {A MLModel} _ _.
Arguments CallModel {A MLModel} _.
Arguments CallForward {A MLModel} _.
Arguments CallConvert {A MLModel} _ _.
Arguments CallSave {A MLModel} _ _.
Arguments CallPrint {A MLModel} _.

(** The world of a run: command line, environment, files, the state of
    torch's generator, the state of the operating system the libraries draw
    on for fresh identifiers (random source, clock), the lines written to
    standard output, and the log of calls. *)
Record World (A Rng Ent MLModel : Type) := mkWorld {
  argv : list string;
  environ : gmap string string;
  files : gmap string bytes;
  rng : Rng;
  entropy : Ent;
  stdout : list string;
  calls : list (Call A MLModel * option Exn) }.
Arguments mkWorld {A Rng Ent MLModel} _ _ _ _ _ _ _.
Arguments argv {A Rng Ent MLModel} _.
Arguments environ {A Rng Ent MLModel} _.
Arguments files {A Rng Ent MLModel} _.
Arguments rng {A Rng Ent MLModel} _.
Arguments entropy {A Rng Ent MLModel} _.
Arguments stdout {A Rng Ent MLModel} _.
Arguments calls {A Rng Ent MLModel} _.

Definition ckpt_path : string := "weights/realesr-general-x4v3.pth".
Definition out_path : string := "RealESRGAN_x4v3_tensor.mlpackage".
Definition done_line : string := "変換完了: RealESRGAN_x4v3_tensor.mlpackage".

(** Membership test and subscript of a Python dict. *)
Definition dict_contains {V} (d : gmap string V) (k : string) : bool :=
  bool_decide (is_Some (d !! k)).

Definition dict_getitem {V} (d : gmap string V) (k : string) : result V :=
  match d !! k with
  | Some v => ok v
  | None => raise (KeyError k)
  end.

(** Lines 15-16: [if 'params' in ckpt: ckpt = ckpt['params']]. *)
Definition select_state_dict {A} (ckpt : gmap string (pyval A)) : result (pyval A) :=
  if dict_contains ckpt "params" then dict_getitem ckpt "params"
  else ok (VDict ckpt).

(** The files with [content] at [path], or with nothing there. *)
Definition put_file (path : string) (content : option bytes)
    (fs : gmap string bytes) : gmap string bytes :=
  match content with
  | Some b => <[path := b]> fs
  | None => delete path fs
  end.

(** ** Loading a state dictionary

    Modelled from the spec: [torch.nn.Module.load_state_dict] is library code
    outside the repository.  The model follows what the script relies on: a
    parameter present in the dictionary is copied when the entry is a tensor
    of the parameter's shape; with [strict] every parameter must be present
    and no other key may occur; any violation raises [RuntimeError]; an
    argument that is not a mapping raises [TypeError]. *)

Definition loadable {A} (p : weight A) (v : pyval A) : bool :=
  match v with
  | VTensor t => bool_decide (wshape t = wshape p)
  | _ => false
  end.

Definition entries_loadable {A} (ps : gmap string (weight A))
    (sd : gmap string (pyval A)) : Prop :=
  map_Forall (fun k p => match sd !! k with
                         | Some v => loadable p v = true
                         | None => True
                         end) ps.

#[global] Instance entries_loadable_dec {A} (ps : gmap string (weight A))
    (sd : gmap string (pyval A)) : Decision (entries_loadable ps sd).
Proof.
  unfold entries_loadable. apply map_Forall_dec.
  intros k p. destruct (sd !! k); apply _.
Defined.

Definition copy_params {A} (ps : gmap string (weight A))
    (sd : gmap string (pyval A)) : gmap string (weight A) :=
  map_imap (fun k p => match sd !! k with
                       | Some (VTensor t) => Some t
                       | _ => Some p
                       end) ps.

Definition load_state_dict {A} (net : Net A) (state_dict : pyval A)
    (strict : bool) : result (Net A) :=
  match state_dict with
  | VDict sd =>
      let missing_keys : gset string := dom (params net) ∖ dom sd in
      let unexpected_keys : gset string := dom sd ∖ dom (params net) in
      if bool_decide (entries_loadable (params net) sd)
         && (negb strict
             || bool_decide (missing_keys = ∅ /\ unexpected_keys = ∅))
      then ok (mkNet (copy_params (params net) sd) (training net))
      else raise (RuntimeError "Error(s) in loading state_dict")
  | _ => raise TypeError
  end.

(** ** The script *)

Section Script.

Context {elem Rng Ent MLModel : Type}.

(** What the libraries and the interpreter compute.  Conversion and saving
    draw on the operating system for fresh identifiers in the package, so
    two runs need not write the same package; saving sees what is at the
    path and, when it raises, may leave something there; encoding a line for
    standard output depends on the environment and raises when the line
    cannot be encoded. *)
Variable unpickle : bytes -> result (gmap string (pyval elem)).
Variable SRVGGNetCompact_init : ArchCfg -> Rng -> gmap string (weight elem) * Rng.
Variable SRVGGNetCompact_forward : Net elem -> tensor4 elem -> result (tensor4 elem).
Variable next_uniform : Rng -> elem * Rng.
Variable coreml_convert : Traced elem -> ConvertArgs -> Ent -> result MLModel * Ent.
Variable coreml_save : MLModel -> option bytes -> Ent -> (Exn * option bytes + bytes) * Ent.
Variable stdout_encode : gmap string string -> string -> result bytes.

#[local] Abbreviation world := (World elem Rng Ent MLModel).
#[local] Abbreviation call := (Call elem MLModel).

(** Computations: they read and change the world, and return or raise. *)
Definition M (T : Type) : Type := world -> result T * world.

#[global] Instance M_ret : MRet M := fun T (a : T) (w : world) => (ok a, w).

#[global] Instance M_bind : MBind M :=
  fun T U (k : T -> M U) (m : M T) (w : world) =>
    match m w with
    | (inl e, w') => (inl e, w')
    | (inr a, w') => k a w'
    end.

Definition liftR {T} (r : result T) : M T := fun w => (r, w).

Definition raised {T} (r : result T) : option Exn :=
  match r with
  | inl e => Some e
  | inr _ => None
  end.

Definition log (c : call) (o : option Exn) (w : world) : world :=
  mkWorld (argv w) (environ w) (files w) (rng w) (entropy w) (stdout w)
    (calls w ++ [(c, o)]).

Definition set_rng (g : Rng) (w : world) : world :=
  mkWorld (argv w) (environ w) (files w) g (entropy w) (stdout w) (calls w).

Definition set_entropy (s : Ent) (w : world) : world :=
  mkWorld (argv w) (environ w) (files w) (rng w) s (stdout w) (calls w).

Definition set_files (fs : gmap string bytes) (w : world) : world :=
  mkWorld (argv w) (environ w) fs (rng w) (entropy w) (stdout w) (calls w).

Definition put_line (s : string) (w : world) : world :=
  mkWorld (argv w) (environ w) (files w) (rng w) (entropy w) (stdout w ++ [s])
    (calls w).

(** [SRVGGNetCompact(...)]: a fresh module, in training mode, initialised
    from the generator. *)
Definition SRVGGNetCompact (cfg : ArchCfg) : M (Net elem) :=
  fun w =>
    let '(ps, g) := SRVGGNetCompact_init cfg (rng w) in
    (ok (mkNet ps true), log (CallSRVGGNetCompact cfg) None (set_rng g w)).

(** [torch.load(path, map_location=...)]: reads one file. *)
Definition torch_load (path map_location : string) : M (gmap string (pyval elem)) :=
  fun w =>
    let r := match files w !! path with
             | Some b => unpickle b
             | None => raise (FileNotFoundError path)
             end in
    (r, log (CallTorchLoad path map_location) (raised r) w).

Definition Module_load_state_dict (net : Net elem) (sd : pyval elem)
    (strict : bool) : M (Net elem) :=
  fun w =>
    let r := load_state_dict net sd strict in
    (r, log (CallLoadStateDict sd strict) (raised r) w).

(** [model.eval()] *)
Definition Module_eval (net : Net elem) : M (Net elem) :=
  fun w => (ok (mkNet (params net) false), log CallEval None w).

(** [self.model(x)] *)
Definition Module_call (net : Net elem) (x : tensor4 elem) : M (tensor4 elem) :=
  fun w =>
    let r := SRVGGNetCompact_forward net x in
    (r, log (CallModel x) (raised r) w).

(** Lines 25-29: [RGBWrapper.forward], over any callable base model. *)
Definition RGBWrapper_forward (model : tensor4 elem -> M (tensor4 elem))
    (x : tensor4 elem) : M (tensor4 elem) :=
  x ← liftR (getitem_channels x [2; 1; 0]);
  let x := contiguous x in
  out ← model x;
  out ← liftR (getitem_channels out [2; 1; 0]);
  let out := contiguous out in
  mret out.

(** [wrapped_model(x)]: one execution of the wrapper's [forward]. *)
Definition RGBWrapper_call (m : RGBWrapper elem) (x : tensor4 elem) : M (tensor4 elem) :=
  fun w =>
    let '(r, w') := RGBWrapper_forward (Module_call (self_model m)) x w in
    (r, log (CallForward x) (raised r) w').

(** [torch.rand(n, c, h, w)]: the elements are drawn one after the other. *)
Fixpoint rand_list {B} (gen : Rng -> B * Rng) (n : nat) (g : Rng) : list B * Rng :=
  match n with
  | O => ([], g)
  | S n' =>
      let '(b, g1) := gen g in
      let '(bs, g2) := rand_list gen n' g1 in
      (b :: bs, g2)
  end.

Definition rand4 (n c h w : nat) (g : Rng) : tensor4 elem * Rng :=
  rand_list (rand_list (rand_list (rand_list next_uniform w) h) c) n g.

Definition torch_rand (n c h w : nat) : M (tensor4 elem) :=
  fun w0 =>
    let '(x, g) := rand4 n c h w (rng w0) in
    (ok x, log (CallRand (n, c, h, w)) None (set_rng g w0)).

(** Modelled from the spec: [torch.jit.trace] is library code outside the
    repository; the spec's glossary has tracing capture the graph "by
    executing the model once on example input". *)
Definition jit_trace (m : RGBWrapper elem) (example : tensor4 elem) : M (Traced elem) :=
  fun w =>
    match RGBWrapper_call m example w with
    | (inl e, w') => (inl e, log (CallJitTrace m example) (Some e) w')
    | (inr out, w') =>
        (ok (mkTraced m example out), log (CallJitTrace m example) None w')
    end.

(** [ct.convert(traced_model, inputs=..., outputs=..., compute_units=...)] *)
Definition ct_convert (t : Traced elem) (args : ConvertArgs) : M MLModel :=
  fun w =>
    let '(r, s) := coreml_convert t args (entropy w) in
    (r, log (CallConvert t args) (raised r) (set_entropy s w)).

(** [mlmodel.save(path)]: writes at one path.  When it raises, the path
    holds what the library left there. *)
Definition MLModel_save (m : MLModel) (path : string) : M unit :=
  fun w =>
    let '(r, s) := coreml_save m (files w !! path) (entropy w) in
    match r with
    | inl (e, leftover) =>
        (inl e,
         log (CallSave m path) (Some e)
           (set_files (put_file path leftover (files w)) (set_entropy s w)))
    | inr pkg =>
        (ok tt,
         log (CallSave m path) None
           (set_files (<[path := pkg]> (files w)) (set_entropy s w)))
    end.

(** [print(s)]: the line is encoded for standard output and written; when
    the encoding raises, nothing is written. *)
Definition print (s : string) : M unit :=
  fun w =>
    match stdout_encode (environ w) s with
    | inl e => (inl e, log (CallPrint s) (Some e) w)
    | inr _ => (ok tt, log (CallPrint s) None (put_line s w))
    end.

(** Lines 7-11: the keyword arguments of the architecture. *)
Definition arch : ArchCfg := mkArchCfg 3 3 64 32 4 "prelu".

(** Lines 41-53: the keyword arguments of [ct.convert]. *)
Definition conversion_args (example_input : tensor4 elem) : ConvertArgs :=
  mkConvertArgs
    [ImageType "input_image" (shape_of example_input) (1 / 255)%float
               [0; 0; 0]%Z "RGB"]
    [TensorType "output_image" np_float32]
    ALL.

(** The module-level statements, top to bottom. *)
Definition script : M unit :=
  model ← SRVGGNetCompact arch;
  ckpt ← torch_load ckpt_path "cpu";
  ckpt ← liftR (select_state_dict ckpt);
  model ← Module_load_state_dict model ckpt true;
  model ← Module_eval model;
  let wrapped_model := mkRGBWrapper model in
  example_input ← torch_rand 1 3 64 64;
  traced_model ← jit_trace wrapped_model example_input;
  mlmodel ← ct_convert traced_model (conversion_args example_input);
  MLModel_save mlmodel out_path;;
  print done_line.

(** *** The runs of the script, by the statement at which they end

    [after w g s fs out tr] is the world [w] with generator [g], random
    source [s], files [fs], the lines [out] printed and the calls [tr]
    made. *)

Definition after (w : world) (g : Rng) (s : Ent) (fs : gmap string bytes)
    (out : list string) (tr : list (call * option Exn)) : world :=
  mkWorld (argv w) (environ w) fs g s (stdout w ++ out) (calls w ++ tr).

Inductive Run (w : world) : result unit -> world -> Prop :=
| RunLoadRaises ps g1 e :
    SRVGGNetCompact_init arch (rng w) = (ps, g1) ->
    fst (torch_load ckpt_path "cpu" w) = inl e ->
    Run w (inl e)
      (after w g1 (entropy w) (files w) []
         [(CallSRVGGNetCompact arch, None);
          (CallTorchLoad ckpt_path "cpu", Some e)])
| RunLoadStateDictRaises ps g1 ckpt sd e :
    SRVGGNetCompact_init arch (rng w) = (ps, g1) ->
    fst (torch_load ckpt_path "cpu" w) = inr ckpt ->
    select_state_dict ckpt = inr sd ->
    load_state_dict (mkNet ps true) sd true = inl e ->
    Run w (inl e)
      (after w g1 (entropy w) (files w) []
         [(CallSRVGGNetCompact arch, None);
          (CallTorchLoad ckpt_path "cpu", None);
          (CallLoadStateDict sd true, Some e)])
| RunModelRaises ps g1 ckpt sd net ex g2 e :
    SRVGGNetCompact_init arch (rng w) = (ps, g1) ->
    fst (torch_load ckpt_path "cpu" w) = inr ckpt ->
    select_state_dict ckpt = inr sd ->
    load_state_dict (mkNet ps true) sd true = inr net ->
    rand4 1 3 64 64 g1 = (ex, g2) ->
    SRVGGNetCompact_forward (mkNet (params net) false) (swap13 ex) = inl e ->
    Run w (inl e)
      (after w g2 (entropy w) (files w) []
         [(CallSRVGGNetCompact arch, None);
          (CallTorchLoad ckpt_path "cpu", None);
          (CallLoadStateDict sd true, None);
          (CallEval, None);
          (CallRand (1, 3, 64, 64), None);
          (CallModel (swap13 ex), Some e);
          (CallForward ex, Some e);
          (CallJitTrace (mkRGBWrapper (mkNet (params net) false)) ex, Some e)])
| RunOutputIndexRaises ps g1 ckpt sd net ex g2 out e :
    SRVGGNetCompact_init arch (rng w) = (ps, g1) ->
    fst (torch_load ckpt_path "cpu" w) = inr ckpt ->
    select_state_dict ckpt = inr sd ->
    load_state_dict (mkNet ps true) sd true = inr net ->
    rand4 1 3 64 64 g1 = (ex, g2) ->
    SRVGGNetCompact_forward (mkNet (params net) false) (swap13 ex) = inr out ->
    permute_210 out = inl e ->
    Run w (inl e)
      (after w g2 (entropy w) (files w) []
         [(CallSRVGGNetCompact arch, None);
          (CallTorchLoad ckpt_path "cpu", None);
          (CallLoadStateDict sd true, None);
          (CallEval, None);
          (CallRand (1, 3, 64, 64), None);
          (CallModel (swap13 ex), None);
          (CallForward ex, Some e);
          (CallJitTrace (mkRGBWrapper (mkNet (params net) false)) ex, Some e)])
| RunConvertRaises ps g1 ckpt sd net ex g2 out out' e s1 :
    SRVGGNetCompact_init arch (rng w) = (ps, g1) ->
    fst (torch_load ckpt_path "cpu" w) = inr ckpt ->
    select_state_dict ckpt = inr sd ->
    load_state_dict (mkNet ps true) sd true = inr net ->
    rand4 1 3 64 64 g1 = (ex, g2) ->
    SRVGGNetCompact_forward (mkNet (params net) false) (swap13 ex) = inr out ->
    permute_210 out = inr out' ->
    coreml_convert (mkTraced (mkRGBWrapper (mkNet (params net) false)) ex out')
      (conversion_args ex) (entropy w) = (inl e, s1) ->
    Run w (inl e)
      (after w g2 s1 (files w) []
         [(CallSRVGGNetCompact arch, None);
          (CallTorchLoad ckpt_path "cpu", None);
          (CallLoadStateDict sd true, None);
          (CallEval, None);
          (CallRand (1, 3, 64, 64), None);
          (CallModel (swap13 ex), None);
          (CallForward ex, None);
          (CallJitTrace (mkRGBWrapper (mkNet (params net) false)) ex, None);
          (CallConvert
             (mkTraced (mkRGBWrapper (mkNet (params net) false)) ex out')
             (conversion_args ex), Some e)])
| RunSaveRaises ps g1 ckpt sd net ex g2 out out' mlmodel s1 e leftover s2 :
    SRVGGNetCompact_init arch (rng w) = (ps, g1) ->
    fst (torch_load ckpt_path "cpu" w) = inr ckpt ->
    select_state_dict ckpt = inr sd ->
    load_state_dict (mkNet ps true) sd true = inr net ->
    rand4 1 3 64 64 g1 = (ex, g2) ->
    SRVGGNetCompact_forward (mkNet (params net) false) (swap13 ex) = inr out ->
    permute_210 out = inr out' ->
    coreml_convert (mkTraced (mkRGBWrapper (mkNet (params net) false)) ex out')
      (conversion_args ex) (entropy w) = (inr mlmodel, s1) ->
    coreml_save mlmodel (files w !! out_path) s1 = (inl (e, leftover), s2) ->
    Run w (inl e)
      (after w g2 s2 (put_file out_path leftover (files w)) []
         [(CallSRVGGNetCompact arch, None);
          (CallTorchLoad ckpt_path "cpu", None);
          (CallLoadStateDict sd true, None);
          (CallEval, None);
          (CallRand (1, 3, 64, 64), None);
          (CallModel (swap13 ex), None);
          (CallForward ex, None);
          (CallJitTrace (mkRGBWrapper (mkNet (params net) false)) ex, None);
          (CallConvert
             (mkTraced (mkRGBWrapper (mkNet (params net) false)) ex out')
             (conversion_args ex), None);
          (CallSave mlmodel out_path, Some e)])
| RunPrintRaises ps g1 ckpt sd net ex g2 out out' mlmodel s1 pkg s2 e :
    SRVGGNetCompact_init arch (rng w) = (ps, g1) ->
    fst (torch_load ckpt_path "cpu" w) = inr ckpt ->
    select_state_dict ckpt = inr sd ->
    load_state_dict (mkNet ps true) sd true = inr net ->
    rand4 1 3 64 64 g1 = (ex, g2) ->
    SRVGGNetCompact_forward (mkNet (params net) false) (swap13 ex) = inr out ->
    permute_210 out = inr out' ->
    coreml_convert (mkTraced (mkRGBWrapper (mkNet (params net) false)) ex out')
      (conversion_args ex) (entropy w) = (inr mlmodel, s1) ->
    coreml_save mlmodel (files w !! out_path) s1 = (inr pkg, s2) ->
    stdout_encode (environ w) done_line = inl e ->
    Run w (inl e)
      (after w g2 s2 (<[out_path := pkg]> (files w)) []
         [(CallSRVGGNetCompact arch, None);
          (CallTorchLoad ckpt_path "cpu", None);
          (CallLoadStateDict sd true, None);
          (CallEval, None);
          (CallRand (1, 3, 64, 64), None);
          (CallModel (swap13 ex), None);
          (CallForward ex, None);
          (CallJitTrace (mkRGBWrapper (mkNet (params net) false)) ex, None);
          (CallConvert
             (mkTraced (mkRGBWrapper (mkNet (params net) false)) ex out')
             (conversion_args ex), None);
          (CallSave mlmodel out_path, None);
          (CallPrint done_line, Some e)])
| RunCompletes ps g1 ckpt sd net ex g2 out out' mlmodel s1 pkg s2 enc :
    SRVGGNetCompact_init arch (rng w) = (ps, g1) ->
    fst (torch_load ckpt_path "cpu" w) = inr ckpt ->
    select_state_dict ckpt = inr sd ->
    load_state_dict (mkNet ps true) sd true = inr net ->
    rand4 1 3 64 64 g1 = (ex, g2) ->
    SRVGGNetCompact_forward (mkNet (params net) false) (swap13 ex) = inr out ->
    permute_210 out = inr out' ->
    coreml_convert (mkTraced (mkRGBWrapper (mkNet (params net) false)) ex out')
      (conversion_args ex) (entropy w) = (inr mlmodel, s1) ->
    coreml_save mlmodel (files w !! out_path) s1 = (inr pkg, s2) ->
    stdout_encode (environ w) done_line = inr enc ->
    Run w (inr tt)
      (after w g2 s2 (<[out_path := pkg]> (files w)) [done_line]
         [(CallSRVGGNetCompact arch, None);
          (CallTorchLoad ckpt_path "cpu", None);
          (CallLoadStateDict sd true, None);
          (CallEval, None);
          (CallRand (1, 3, 64, 64), None);
          (CallModel (swap13 ex), None);
          (CallForward ex, None);
          (CallJitTrace (mkRGBWrapper (mkNet (params net) false)) ex, None);
          (CallConvert
             (mkTraced (mkRGBWrapper (mkNet (params net) false)) ex out')
             (conversion_args ex), None);
          (CallSave mlmodel out_path, None);
          (CallPrint done_line, None)]).

End Script.

(** ** Reading the log of calls *)

(** The calls made between two worlds of one run. *)
Definition trace_of {A Rng Ent MLModel} (w w' : World A Rng Ent MLModel) :
    list (Call A MLModel * option Exn) :=
  drop (length (calls w)) (calls w').

(** The statement of the script a call belongs to. *)
Inductive Stage :=
| StConstruct | StLoad | StLoadStateDict | StEval | StExample
| StModel | StForward | StTrace | StConvert | StSave | StPrint.

Definition stage_of {A MLModel} (c : Call A MLModel) : Stage :=
  match c with
  | CallSRVGGNetCompact _ => StConstruct
  | CallTorchLoad _ _ => StLoad
  | CallLoadStateDict _ _ => StLoadStateDict
  | CallEval => StEval
  | CallRand _ => StExample
  | CallModel _ => StModel
  | CallForward _ => StForward
  | CallJitTrace _ _ => StTrace
  | CallConvert _ _ => StConvert
  | CallSave _ _ => StSave
  | CallPrint _ => StPrint
  end.

(** The statements in source order; the two calls made inside tracing come
    before the tracing call, which returns after them. *)
Definition pipeline : list Stage :=
  [StConstruct; StLoad; StLoadStateDict; StEval; StExample;
   StModel; StForward; StTrace; StConvert; StSave; StPrint].

Definition stages {A MLModel} (tr : list (Call A MLModel * option Exn)) : list Stage :=
  map (fun ev => stage_of (fst ev)) tr.

Definition in_tracing (st : Stage) : bool :=
  match st with
  | StModel | StForward | StTrace => true
  | _ => false
  end.

Definition is_stage {A MLModel} (st : Stage) (ev : Call A MLModel * option Exn) : bool :=
  match stage_of (fst ev), st with
  | StConstruct, StConstruct | StLoad, StLoad
  | StLoadStateDict, StLoadStateDict | StEval, StEval
  | StExample, StExample | StModel, StModel | StForward, StForward
  | StTrace, StTrace | StConvert, StConvert | StSave, StSave
  | StPrint, StPrint => true
  | _, _ => false
  end.

(** The calls that returned, and the calls that raised. *)
Definition returned {A MLModel} (tr : list (Call A MLModel * option Exn)) :
    list (Call A MLModel * option Exn) :=
  List.filter (fun ev => match snd ev with None => true | Some _ => false end) tr.

Definition raising {A MLModel} (tr : list (Call A MLModel * option Exn)) :
    list (Call A MLModel * option Exn) :=
  List.filter (fun ev => match snd ev with None => false | Some _ => true end) tr.

(** The calls of one statement, in order. *)
Definition calls_of {A MLModel} (st : Stage)
    (tr : list (Call A MLModel * option Exn)) : list (Call A MLModel * option Exn) :=
  List.filter (is_stage st) tr.


(** ** A small instance to run the script on

    Elements, generator states and states of the random source are numbers,
    a model package is a number; the checkpoint layout depends on the length
    of the file. *)

Definition toy_weight : weight N := mkWeight [1] [7%N].

Definition toy_state : gmap string (pyval N) :=
  {["body.0.bias" := VTensor toy_weight]}.

Definition toy_unpickle (b : bytes) : result (gmap string (pyval N)) :=
  match b with
  | [] => raise (LibraryError "pickle")
  | [_] => ok (<["params" := VDict toy_state]> (<["epoch" := VInt 3]> ∅))
  | [_; _] => ok toy_state
  | _ => ok (<["params" := VDict (<["extra" := VTensor toy_weight]> toy_state)]> ∅)
  end.

Definition toy_init (cfg : ArchCfg) (g : N) : gmap string (weight N) * N :=
  ({["body.0.bias" := mkWeight [1] [g]]}, N.succ g).

Definition toy_forward (net : Net N) (x : tensor4 N) : result (tensor4 N) := ok x.

Definition toy_next (g : N) : N * N := (g, N.succ g).

Definition toy_convert (t : Traced N) (args : ConvertArgs) (s : N) : result N * N :=
  (ok (N.of_nat (length (inputs args))), N.succ s).

(** The package holds an identifier drawn from the random source. *)
Definition toy_save (m : N) (old : option bytes) (s : N) :
    (Exn * option bytes + bytes) * N :=
  (inr (replicate (N.to_nat s) Byte.x2a), N.succ s).

Definition is_ascii (s : string) : bool :=
  forallb (fun a => (Ascii.N_of_ascii a <? 128)%N) (String.list_ascii_of_string s).

(** Standard output as the interpreter sets it up from [PYTHONIOENCODING]:
    under the codec [ascii] a line with a character outside ASCII cannot be
    encoded. *)
Definition toy_encode (env : gmap string string) (s : string) : result bytes :=
  if bool_decide (env !! "PYTHONIOENCODING" = Some "ascii") && negb (is_ascii s)
  then raise UnicodeEncodeError
  else ok (String.list_byte_of_string s).

Definition toy_world (args : list string) (fs : gmap string bytes) : World N N N N :=
  mkWorld args ∅ fs 0%N 0%N [] [].

Definition toy_script : M unit :=
  script toy_unpickle toy_init toy_forward toy_next toy_convert toy_save toy_encode.

(** A file system with a nested-layout checkpoint. *)
Definition toy_files : gmap string bytes := {[ckpt_path := [Byte.x01]]}.



(** A 4-channel batch of one 1x1 image. *)
Definition rgba_pixel : tensor4 N := [[ [[10%N]]; [[20%N]]; [[30%N]]; [[40%N]] ]].

(** A 3-channel batch of one 1x2 image. *)
Definition rgb_row : tensor4 N := [[ [[1%N; 2%N]]; [[3%N; 4%N]]; [[5%N; 6%N]] ]].

(** ** Element-wise maps *)

(** [map4 f x] applies [f] to every element of the batch. *)
Definition map4 {A B} (f : A -> B) (x : tensor4 A) : tensor4 B :=
  map (map (map (map f))) x.

(** ** Further instances *)

(** A base model that accepts a batch of one 3-channel image only. *)
Definition strict_rgb_model (t : tensor4 N) : @M N N N N (tensor4 N) :=
  match t with
  | [[_; _; _]] => mret t
  | _ => liftR (raise TypeError)
  end.

(** A 2-channel batch of one 1x1 image. *)
Definition duo_pixel : tensor4 N := [[ [[10%N]]; [[20%N]] ]].

(** A base network with a 2-channel output. *)
Definition duo_forward (net : Net N) (x : tensor4 N) : result (tensor4 N) :=
  ok duo_pixel.

(** The script over the 2-channel network. *)
Definition duo_script : M unit :=
  script toy_unpickle toy_init duo_forward toy_next toy_convert toy_save toy_encode.

(** * Properties *)

(** ** Traversals with exceptions *)

Lemma mapR_length {A B} (f : A -> result B) (l : list A) (l' : list B) :
  mapR f l = inr l' -> length l' = length l.
Proof.
  revert l'. induction l as [|a l IH]; intros l' H; simpl in H.
  - injection H as <-. reflexivity.
  - destruct (f a) as [e|b]; simpl in H; [discriminate|].
    destruct (mapR f l) as [e|bs]; simpl in H; [discriminate|].
    injection H as <-. simpl. f_equal. apply IH. reflexivity.
Qed.

Lemma mapR_lookup {A B} (f : A -> result B) (l : list A) (l' : list B) (i : nat) :
  mapR f l = inr l' ->
  match l !! i with
  | Some a => exists b, f a = inr b /\ l' !! i = Some b
  | None => l' !! i = None
  end.
Proof.
  revert l' i. induction l as [|a l IH]; intros l' i H; simpl in H.
  - injection H as <-. destruct i; reflexivity.
  - destruct (f a) as [e|b] eqn:Hb; simpl in H; [discriminate|].
    destruct (mapR f l) as [e|bs] eqn:Hbs; simpl in H; [discriminate|].
    injection H as <-. destruct i as [|i]; simpl.
    + exists b. split; [exact Hb | reflexivity].
    + apply IH. reflexivity.
Qed.

Lemma mapR_Forall {A B} (f : A -> result B) (P : A -> Prop) (Q : B -> Prop) (l : list A) :
  (forall a, P a -> exists b, f a = inr b /\ Q b) ->
  Forall P l -> exists l', mapR f l = inr l' /\ Forall Q l'.
Proof.
  intros Hf. induction 1 as [|a l Ha Hl [l' [El' Hl']]]; simpl.
  - exists []. split; [reflexivity | constructor].
  - destruct (Hf a Ha) as [b [Eb Hb]]. rewrite Eb, El'. simpl.
    exists (b :: l'). split; [reflexivity | constructor; assumption].
Qed.

Lemma mapR_ext_ok {A B} (f : A -> result B) (g : A -> B) (P : A -> Prop) (l : list A) :
  (forall a, P a -> f a = inr (g a)) ->
  Forall P l -> mapR f l = inr (map g l).
Proof.
  intros Hf. induction 1 as [|a l Ha Hl IH]; simpl; [reflexivity|].
  rewrite (Hf a Ha), IH. reflexivity.
Qed.

(** ** The channel indexing *)

Lemma gather_210 {A} (img : list A) :
  length img = 3 ->
  gather [2; 1; 0] img =
    inr (match img with [c0; c1; c2] => [c2; c1; c0] | _ => img end).
Proof.
  destruct img as [|c0 [|c1 [|c2 [|c3 img]]]]; simpl; intros H;
    try discriminate. reflexivity.
Qed.

Lemma getitem_channels_swap13 {A} (x : tensor4 A) :
  channels 3 x -> getitem_channels x [2; 1; 0] = inr (swap13 x).
Proof.
  intros H. unfold getitem_channels, swap13.
  apply mapR_ext_ok with (P := fun img => length img = 3); [|exact H].
  intros img Himg. apply gather_210. exact Himg.
Qed.

Lemma swap13_involutive {A} (x : tensor4 A) : swap13 (swap13 x) = x.
Proof.
  unfold swap13. rewrite map_map. rewrite <- (map_id x) at 2.
  apply map_ext. intros [|c0 [|c1 [|c2 [|c3 img]]]]; reflexivity.
Qed.

Lemma swap13_channels {A} (x : tensor4 A) : channels 3 x -> channels 3 (swap13 x).
Proof.
  unfold channels, swap13. intros H. apply Forall_map.
  eapply Forall_impl; [exact H|].
  intros [|c0 [|c1 [|c2 [|c3 img]]]]; simpl; intros E; try discriminate.
  reflexivity.
Qed.

Lemma gather_lookup {A} (idx : list nat) (img img' : list A) (k : nat) :
  gather idx img = inr img' ->
  img' !! k = match idx !! k with Some k' => img !! k' | None => None end.
Proof.
  intros H. unfold gather in H.
  pose proof (mapR_lookup _ _ _ k H) as L.
  destruct (idx !! k) as [k'|]; [|exact L].
  destruct L as [ch [E ->]].
  destruct (img !! k') as [ch'|]; [|discriminate].
  injection E as ->. reflexivity.
Qed.

Lemma getitem_channels_at4 {A} (idx : list nat) (x y : tensor4 A) (b k i j : nat) :
  getitem_channels x idx = inr y ->
  at4 y b k i j =
    match idx !! k with Some k' => at4 x b k' i j | None => None end.
Proof.
  intros H. unfold getitem_channels in H.
  pose proof (mapR_lookup _ _ _ b H) as L. unfold at4.
  destruct (x !! b) as [img|].
  - destruct L as [img' [E L]]. rewrite L, (gather_lookup _ _ _ k E).
    destruct (idx !! k); reflexivity.
  - rewrite L. destruct (idx !! k); reflexivity.
Qed.

Lemma gather_in_range {A} (P : A -> Prop) (idx : list nat) (img : list A) :
  Forall (fun i => i < length img) idx -> Forall P img ->
  exists img', gather idx img = inr img' /\ length img' = length idx /\ Forall P img'.
Proof.
  intros Hidx HP. unfold gather.
  destruct (mapR_Forall
              (fun i => match img !! i with Some ch => ok ch | None => raise IndexError end)
              (fun i => i < length img) P idx) as [img' [E HP']].
  - intros i Hi. destruct (lookup_lt_is_Some_2 img i Hi) as [ch Hch].
    rewrite Hch. exists ch. split; [reflexivity|].
    rewrite Forall_forall in HP. apply HP. eapply list_elem_of_lookup_2. exact Hch.
  - exact Hidx.
  - exists img'. split; [exact E|]. split; [|exact HP'].
    eapply mapR_length. exact E.
Qed.

Lemma getitem_channels_shape {A} (idx : list nat) (x : tensor4 A) (n c h w : nat) :
  Forall (fun i => i < c) idx -> has_shape (n, c, h, w) x ->
  exists y, getitem_channels x idx = inr y /\ has_shape (n, length idx, h, w) y.
Proof.
  intros Hidx [Hn Hx]. unfold getitem_channels.
  destruct (mapR_Forall (gather idx)
    (fun img : list (list (list A)) =>
       length img = c /\
       Forall (fun pl : list (list A) =>
         length pl = h /\ Forall (fun row : list A => length row = w) pl) img)
    (fun img : list (list (list A)) =>
       length img = length idx /\
       Forall (fun pl : list (list A) =>
         length pl = h /\ Forall (fun row : list A => length row = w) pl) img)
    x) as [y [E Hy]].
  - intros img [Hc Himg].
    destruct (gather_in_range
      (fun pl : list (list A) =>
         length pl = h /\ Forall (fun row : list A => length row = w) pl)
      idx img) as [img' [E' [L' F']]].
    + rewrite Hc. exact Hidx.
    + exact Himg.
    + exists img'. split; [exact E'|]. split; assumption.
  - exact Hx.
  - exists y. split; [exact E|]. split; [|exact Hy].
    rewrite <- Hn. eapply mapR_length. exact E.
Qed.

(** ** The wrapper *)

Section Wrapper.

Context {elem Rng Ent MLModel : Type}.

#[local] Abbreviation world := (World elem Rng Ent MLModel).
#[local] Abbreviation comp := (@M elem Rng Ent MLModel).

(** C1: on a 4-D input with 3 channels, [RGBWrapper.forward] is the base
    model between two applications of the channel indexing by [2,1,0]: the
    indexing exchanges the first and the third channel, the base model runs
    on the exchanged input, and its output is indexed the same way. *)
Theorem RGBWrapper_forward_permutes (model : tensor4 elem -> comp (tensor4 elem))
    (x : tensor4 elem) (w : world) :
  channels 3 x ->
  permute_210 x = ok (swap13 x) /\
  RGBWrapper_forward model x w =
    (x' ← liftR (permute_210 x); out ← model x'; liftR (permute_210 out)) w /\
  RGBWrapper_forward model x w =
    match model (swap13 x) w with
    | (inl e, w') => (inl e, w')
    | (inr out, w') => (permute_210 out, w')
    end /\
  (forall out w', model (swap13 x) w = (inr out, w') -> channels 3 out ->
     RGBWrapper_forward model x w = (ok (swap13 out), w')).
Proof.
  intros Hx. pose proof (getitem_channels_swap13 x Hx) as Hp.
  assert (Hrun : RGBWrapper_forward model x w =
                 match model (swap13 x) w with
                 | (inl e, w') => (inl e, w')
                 | (inr out, w') => (permute_210 out, w')
                 end).
  { unfold RGBWrapper_forward, permute_210, contiguous, mbind, M_bind, liftR, mret, M_ret.
    rewrite Hp. destruct (model (swap13 x) w) as [[e|out] w']; [reflexivity|].
    destruct (getitem_channels out [2; 1; 0]); reflexivity. }
  split; [exact Hp|]. split; [|split; [exact Hrun|]].
  - rewrite Hrun. unfold permute_210, mbind, M_bind, liftR. rewrite Hp.
    destruct (model (swap13 x) w) as [[e|out] w']; reflexivity.
  - intros out w' Hm Hout. rewrite Hrun, Hm. unfold permute_210.
    rewrite (getitem_channels_swap13 out Hout). reflexivity.
Qed.

(** C8: the channel indexing by [2,1,0] undoes itself on a 3-channel tensor,
    and the wrapper around a base model that returns its input returns its
    input. *)
Theorem permute_210_involution (x : tensor4 elem) :
  channels 3 x ->
  (exists y, permute_210 x = ok y /\ permute_210 y = ok x) /\
  (forall w : world, RGBWrapper_forward (fun t => mret t) x w = (ok x, w)).
Proof.
  intros Hx. pose proof (getitem_channels_swap13 x Hx) as Hp.
  pose proof (getitem_channels_swap13 (swap13 x) (swap13_channels x Hx)) as Hq.
  rewrite swap13_involutive in Hq. split.
  - exists (swap13 x). split; assumption.
  - intros w.
    unfold RGBWrapper_forward, contiguous, mbind, M_bind, liftR, mret, M_ret.
    rewrite Hp. cbv beta iota. rewrite Hq. reflexivity.
Qed.

(** C9 (amended): on a tensor of shape (n, c, h, w) with at least 3 channels
    the indexing by [2,1,0] succeeds; the result has shape (n, 3, h, w), so
    batch and spatial dimensions are kept, and the whole shape when c = 3;
    its element at (b, k, i, j) is the input's element at
    (b, [2,1,0][k], i, j), so no value is altered. *)
Theorem permute_210_frame (x : tensor4 elem) (n c h w : nat) :
  has_shape (n, c, h, w) x -> 3 <= c ->
  exists y,
    permute_210 x = ok y /\
    has_shape (n, 3, h, w) y /\
    (c = 3 -> has_shape (n, c, h, w) y) /\
    (forall b k i j,
       at4 y b k i j =
         match [2; 1; 0] !! k with
         | Some k' => at4 x b k' i j
         | None => None
         end).
Proof.
  intros Hs Hc.
  destruct (getitem_channels_shape [2; 1; 0] x n c h w) as [y [E Hy]].
  - repeat constructor; lia.
  - exact Hs.
  - exists y. split; [exact E|]. split; [exact Hy|]. split.
    + intros ->. exact Hy.
    + intros b k i j. apply getitem_channels_at4. exact E.
Qed.

End Wrapper.

(** ** The example input *)

Section Rand.

Context {Rng : Type}.

Lemma rand_list_length {B} (gen : Rng -> B * Rng) (n : nat) (g : Rng) :
  length (fst (rand_list gen n g)) = n.
Proof.
  revert g. induction n as [|n IH]; intros g; simpl; [reflexivity|].
  destruct (gen g) as [b g1]. specialize (IH g1).
  destruct (rand_list gen n g1) as [bs g2]. simpl in *. f_equal. exact IH.
Qed.

Lemma rand_list_Forall {B} (P : B -> Prop) (gen : Rng -> B * Rng) (n : nat) (g : Rng) :
  (forall g', P (fst (gen g'))) -> Forall P (fst (rand_list gen n g)).
Proof.
  intros HP. revert g. induction n as [|n IH]; intros g; simpl; [constructor|].
  pose proof (HP g) as Hb. destruct (gen g) as [b g1]. specialize (IH g1).
  destruct (rand_list gen n g1) as [bs g2]. simpl in *. constructor; assumption.
Qed.

Lemma rand4_has_shape {A} (next : Rng -> A * Rng) (n c h w : nat) (g : Rng) :
  has_shape (n, c, h, w) (fst (rand4 next n c h w g)).
Proof.
  unfold rand4, has_shape. split; [apply rand_list_length|].
  apply rand_list_Forall. intros g1. split; [apply rand_list_length|].
  apply rand_list_Forall. intros g2. split; [apply rand_list_length|].
  apply rand_list_Forall. intros g3. apply rand_list_length.
Qed.

End Rand.

Lemma has_shape_shape_of {A} (x : tensor4 A) (n c h w : nat) :
  has_shape (n, c, h, w) x -> 0 < n -> 0 < c -> 0 < h -> shape_of x = (n, c, h, w).
Proof.
  intros [Hn Hx] Pn Pc Ph. unfold shape_of.
  destruct x as [|img x]; simpl in *; [lia|].
  apply Forall_cons_1 in Hx as [[Hc Himg] _].
  destruct img as [|pl img]; simpl in *; [lia|].
  apply Forall_cons_1 in Himg as [[Hh Hpl] _].
  destruct pl as [|row pl]; simpl in *; [lia|].
  apply Forall_cons_1 in Hpl as [Hw _].
  rewrite Hn, Hc, Hh, Hw. reflexivity.
Qed.

Lemma has_shape_channels {A} (x : tensor4 A) (n c h w : nat) :
  has_shape (n, c, h, w) x -> channels c x.
Proof.
  intros [_ Hx]. unfold channels. eapply Forall_impl; [exact Hx|].
  intros img [Hc _]. exact Hc.
Qed.

(** ** The checkpoint layouts *)

Lemma select_state_dict_cases {A} (ckpt : gmap string (pyval A)) :
  select_state_dict ckpt =
    inr (match ckpt !! "params" with Some v => v | None => VDict ckpt end).
Proof.
  unfold select_state_dict, dict_contains, dict_getitem.
  destruct (ckpt !! "params") as [v|] eqn:E.
  - rewrite bool_decide_eq_true_2; [reflexivity | eauto].
  - rewrite bool_decide_eq_false_2; [reflexivity | ].
    intros [v Hv]. discriminate.
Qed.

(** ** Files *)


Lemma put_file_lookup_ne (path p : string) (content : option bytes)
    (fs : gmap string bytes) :
  p <> path -> put_file path content fs !! p = fs !! p.
Proof.
  intros H. destruct content; simpl;
    [apply lookup_insert_ne | apply lookup_delete_ne]; congruence.
Qed.

(** ** Runs of the script *)

Section ScriptProps.

Context {elem Rng Ent MLModel : Type}.
Variable unpickle : bytes -> result (gmap string (pyval elem)).
Variable SRVGGNetCompact_init : ArchCfg -> Rng -> gmap string (weight elem) * Rng.
Variable SRVGGNetCompact_forward : Net elem -> tensor4 elem -> result (tensor4 elem).
Variable next_uniform : Rng -> elem * Rng.
Variable coreml_convert : Traced elem -> ConvertArgs -> Ent -> result MLModel * Ent.
Variable coreml_save : MLModel -> option bytes -> Ent -> (Exn * option bytes + bytes) * Ent.
Variable stdout_encode : gmap string string -> string -> result bytes.

#[local] Abbreviation world := (World elem Rng Ent MLModel).
#[local] Abbreviation run :=
  (script unpickle SRVGGNetCompact_init SRVGGNetCompact_forward next_uniform
          coreml_convert coreml_save stdout_encode).
#[local] Abbreviation Runs :=
  (Run unpickle SRVGGNetCompact_init SRVGGNetCompact_forward next_uniform
       coreml_convert coreml_save stdout_encode).
#[local] Abbreviation load_checkpoint w :=
  (fst (torch_load unpickle ckpt_path "cpu" w)).

Lemma after_start c o g (w : world) :
  log c o (set_rng g w) = after w g (entropy w) (files w) [] [(c, o)].
Proof. unfold log, set_rng, after. cbn. rewrite app_nil_r. reflexivity. Qed.

Lemma log_after c o (w : world) g s fs out tr :
  log c o (after w g s fs out tr) = after w g s fs out (tr ++ [(c, o)]).
Proof. unfold log, after. cbn. rewrite app_assoc. reflexivity. Qed.

Lemma set_rng_after g' (w : world) g s fs out tr :
  set_rng g' (after w g s fs out tr) = after w g' s fs out tr.
Proof. reflexivity. Qed.

Lemma set_entropy_after s' (w : world) g s fs out tr :
  set_entropy s' (after w g s fs out tr) = after w g s' fs out tr.
Proof. reflexivity. Qed.

Lemma set_files_after fs' (w : world) g s fs out tr :
  set_files fs' (after w g s fs out tr) = after w g s fs' out tr.
Proof. reflexivity. Qed.

Lemma put_line_after l (w : world) g s fs out tr :
  put_line l (after w g s fs out tr) = after w g s fs (out ++ [l]) tr.
Proof. unfold put_line, after. cbn. rewrite app_assoc. reflexivity. Qed.

Lemma trace_of_after (w : world) g s fs out tr :
  trace_of w (after w g s fs out tr) = tr.
Proof. unfold trace_of, after. cbn. apply drop_app_length. Qed.

Ltac unfold_script :=
  cbv beta iota delta
    [script mbind M_bind mret M_ret liftR SRVGGNetCompact torch_load
     Module_load_state_dict Module_eval torch_rand jit_trace RGBWrapper_call
     RGBWrapper_forward Module_call ct_convert MLModel_save print contiguous
     self_model].

Ltac to_after :=
  repeat first [rewrite log_after | rewrite set_rng_after
               | rewrite set_entropy_after
               | rewrite set_files_after | rewrite put_line_after];
  cbn [app files rng entropy environ after fst snd raised].

Lemma rand4_channels n h w (g g' : Rng) (ex : tensor4 elem) :
  rand4 next_uniform n 3 h w g = (ex, g') -> permute_210 ex = inr (swap13 ex).
Proof.
  intros H. apply getitem_channels_swap13. eapply has_shape_channels.
  pose proof (rand4_has_shape next_uniform n 3 h w g) as Hs.
  rewrite H in Hs. exact Hs.
Qed.

(** Every run of the script is one of the runs listed in [Run]. *)
Lemma script_run (w : world) : Runs w (fst (run w)) (snd (run w)).
Proof.
  unfold_script.
  destruct (SRVGGNetCompact_init arch (rng w)) as [ps g1] eqn:Hinit.
  cbv beta iota. rewrite after_start. to_after.
  pose (ld := load_checkpoint w).
  assert (Hld : load_checkpoint w = ld) by reflexivity.
  pose proof Hld as Hld'.
  unfold torch_load in Hld' at 1. cbn [fst] in Hld'. rewrite Hld'. clear Hld'.
  destruct ld as [e|ckpt]; cbn [fst snd raised].
  { to_after. eapply RunLoadRaises; eassumption. }
  rewrite (select_state_dict_cases ckpt).
  set (sd := match ckpt !! "params" with Some v => v | None => VDict ckpt end).
  destruct (load_state_dict (mkNet ps true) sd true) as [e|net] eqn:Hsd;
    cbn [fst snd raised].
  { to_after. eapply RunLoadStateDictRaises; try eassumption.
    apply select_state_dict_cases. }
  to_after.
  destruct (rand4 next_uniform 1 3 64 64 g1) as [ex g2] eqn:Hrand.
  cbv beta iota.
  pose proof (rand4_channels _ _ _ _ _ _ Hrand) as Hex.
  unfold permute_210 in Hex. rewrite Hex.
  destruct (SRVGGNetCompact_forward (mkNet (params net) false) (swap13 ex))
    as [e|out] eqn:Hfw; cbn [fst snd raised].
  { to_after. eapply RunModelRaises; try eassumption.
    apply select_state_dict_cases. }
  destruct (getitem_channels out [2; 1; 0]) as [e|out'] eqn:Hout;
    cbn [fst snd raised].
  { to_after. eapply RunOutputIndexRaises; try eassumption.
    apply select_state_dict_cases. }
  to_after.
  destruct (coreml_convert _ _ _) as [[e|mlmodel] s1] eqn:Hconv;
    cbn [fst snd raised].
  { to_after. eapply RunConvertRaises; try eassumption.
    apply select_state_dict_cases. }
  to_after.
  destruct (coreml_save mlmodel (files w !! out_path) s1)
    as [[[e leftover]|pkg] s2] eqn:Hsave; cbn [fst snd raised].
  { to_after. eapply RunSaveRaises; try eassumption.
    apply select_state_dict_cases. }
  to_after.
  destruct (stdout_encode (environ w) done_line) as [e|enc] eqn:Henc;
    cbn [fst snd raised].
  { to_after. eapply RunPrintRaises; try eassumption.
    apply select_state_dict_cases. }
  to_after. eapply RunCompletes; try eassumption.
  apply select_state_dict_cases.
Qed.

Lemma script_run_eq (w : world) r w' : run w = (r, w') -> Runs w r w'.
Proof. intros H. pose proof (script_run w) as HR. rewrite H in HR. exact HR. Qed.

(** Membership in an explicit list of calls, one entry at a time. *)
Ltac in_trace H :=
  repeat (apply elem_of_cons in H as [H|H]);
  try (apply elem_of_nil in H; destruct H);
  try discriminate H;
  try (injection H as; subst).

Ltac by_run H :=
  apply script_run_eq in H; destruct H; rewrite ?trace_of_after.

(** C2: the state dictionary handed to [load_state_dict] is the value under
    ['params'] when the checkpoint has that key, whatever else it holds, and
    the checkpoint itself otherwise; selecting never raises, and a run that
    loads a checkpoint makes one [load_state_dict] call, with that
    dictionary. *)
Theorem select_state_dict_two_layouts (ckpt : gmap string (pyval elem)) :
  (forall v, ckpt !! "params" = Some v -> select_state_dict ckpt = ok v) /\
  (ckpt !! "params" = None -> select_state_dict ckpt = ok (VDict ckpt)) /\
  (forall ckpt' v, ckpt !! "params" = Some v -> ckpt' !! "params" = Some v ->
     select_state_dict ckpt' = select_state_dict ckpt) /\
  (forall (w : world) r w', run w = (r, w') -> load_checkpoint w = ok ckpt ->
     exists o,
       calls_of StLoadStateDict (trace_of w w') =
         [(CallLoadStateDict
             (match ckpt !! "params" with Some v => v | None => VDict ckpt end)
             true, o)]).
Proof.
  split; [|split; [|split]].
  - intros v H. rewrite select_state_dict_cases, H. reflexivity.
  - intros H. rewrite select_state_dict_cases, H. reflexivity.
  - intros ckpt' v H H'. rewrite !select_state_dict_cases, H, H'. reflexivity.
  - intros w r w' H Hld. by_run H;
      repeat match goal with
      | H1 : load_checkpoint w = _ |- _ =>
          rewrite Hld in H1; try discriminate H1; injection H1 as <-
      | H2 : select_state_dict _ = inr _ |- _ =>
          rewrite select_state_dict_cases in H2; injection H2 as <-
      end;
      eexists; reflexivity.
Qed.

(** What tracing returns does not depend on the world it runs in: it is the
    wrapper, the example, and the wrapper's output on the example. *)
Lemma jit_trace_returns (m : RGBWrapper elem) (ex out out' : tensor4 elem)
    (w0 : world) :
  permute_210 ex = inr (swap13 ex) ->
  SRVGGNetCompact_forward (self_model m) (swap13 ex) = inr out ->
  permute_210 out = inr out' ->
  fst (jit_trace SRVGGNetCompact_forward m ex w0) = ok (mkTraced m ex out').
Proof.
  unfold permute_210. intros Hex Hfw Hout.
  unfold jit_trace, RGBWrapper_call, RGBWrapper_forward, Module_call,
    contiguous, mbind, M_bind, liftR, mret, M_ret.
  rewrite Hex, Hfw. cbn [fst snd raised]. rewrite Hout. reflexivity.
Qed.

(** C3: the calls of a run follow the statements of the script in their
    fixed order (load, load_state_dict, eval, wrap and example, trace,
    convert, save, print); a run completes exactly when it has made all of
    them and none raised; the calls that return come before the calls that
    raise, and only the calls made for tracing raise together; and each
    stage works on what the one before it returned: tracing runs the wrapper
    around the loaded model, conversion takes the value tracing returned,
    saving takes the model conversion returned and writes it to the output
    path. *)
Theorem script_is_linear_pipeline (w : world) r w' :
  run w = (r, w') ->
  let tr := trace_of w w' in
  calls w' = calls w ++ tr /\
  stages tr `prefix_of` pipeline /\
  (r = ok tt <-> stages tr = pipeline /\ raising tr = []) /\
  tr = returned tr ++ raising tr /\
  (1 < length (raising tr) ->
     Forall (fun ev => in_tracing (stage_of (fst ev)) = true) (raising tr)) /\
  (forall m ex o, (CallJitTrace m ex, o) ∈ tr ->
     exists ps g1 ckpt sd net g2,
       SRVGGNetCompact_init arch (rng w) = (ps, g1) /\
       load_checkpoint w = ok ckpt /\
       select_state_dict ckpt = ok sd /\
       (CallLoadStateDict sd true, None) ∈ tr /\
       load_state_dict (mkNet ps true) sd true = ok net /\
       m = mkRGBWrapper (mkNet (params net) false) /\
       rand4 next_uniform 1 3 64 64 g1 = (ex, g2)) /\
  (forall t args o, (CallConvert t args, o) ∈ tr ->
     (CallJitTrace (traced_module t) (traced_example t), None) ∈ tr /\
     (forall w0 : world,
        fst (jit_trace SRVGGNetCompact_forward (traced_module t)
               (traced_example t) w0) = ok t) /\
     args = conversion_args (traced_example t)) /\
  (forall mlmodel path o, (CallSave mlmodel path, o) ∈ tr ->
     path = out_path /\
     exists t args,
       (CallConvert t args, None) ∈ tr /\
       fst (ct_convert coreml_convert t args w) = ok mlmodel) /\
  (r = ok tt ->
     exists mlmodel pkg s1,
       (CallSave mlmodel out_path, None) ∈ tr /\
       fst (coreml_save mlmodel (files w !! out_path) s1) = inr pkg /\
       files w' = <[out_path := pkg]> (files w)).
Proof.
  intros H tr. subst tr. by_run H.
  all: split; [reflexivity|].
  all: split; [eexists; reflexivity|].
  all: split;
    [split;
     [intros Heq; first [discriminate Heq | split; reflexivity]
     |intros [Hst Hra]; first [discriminate Hst | discriminate Hra | reflexivity]]|].
  all: split; [reflexivity|].
  all: split;
    [cbn [returned raising List.filter snd length]; intros Hlen;
     first [lia | repeat constructor]|].
  all: split;
    [intros m' ex' o' Hin; in_trace Hin;
     do 6 eexists; repeat split; try eassumption;
     repeat first [apply list_elem_of_here | apply list_elem_of_further]|].
  all: split;
    [intros t args o' Hin; in_trace Hin; cbn [traced_module traced_example];
     (split;
       [repeat first [apply list_elem_of_here | apply list_elem_of_further]|]);
     (split; [|reflexivity]);
     intros w0;
     (eapply jit_trace_returns;
       [eapply rand4_channels; eassumption | eassumption | eassumption])|].
  all: split;
    [intros m' path o' Hin; in_trace Hin;
     (split; [reflexivity|]); do 2 eexists;
     (split;
       [repeat first [apply list_elem_of_here | apply list_elem_of_further]|]);
     unfold ct_convert;
     match goal with
     | Hc : coreml_convert _ _ _ = _ |- _ => rewrite Hc
     end; reflexivity|].
  all: intros Hr; try discriminate Hr.
  do 3 eexists. split; [|split; [|reflexivity]].
  - repeat first [apply list_elem_of_here | apply list_elem_of_further].
  - match goal with
    | Hs : coreml_save _ _ _ = _ |- _ => rewrite Hs
    end. reflexivity.
Qed.

(** C4: the script handles no exception.  A call that raises ends the run
    with that exception, and a run that raises has its last call raising the
    same exception and prints nothing.  When a call before the save raises
    (checkpoint load, state-dict load, tracing, conversion), the save is
    never called and the files are as they were; a run in which the save is
    not called leaves the files as they were; and whatever raises, every
    file but the output package is as it was. *)
Theorem script_propagates_errors (w : world) r w' :
  run w = (r, w') ->
  let tr := trace_of w w' in
  (forall c e, (c, Some e) ∈ tr -> r = raise e) /\
  (forall e, load_checkpoint w = raise e -> r = raise e) /\
  (forall e, r = raise e ->
     (exists c, last tr = Some (c, Some e)) /\
     stdout w' = stdout w /\
     (calls_of StSave tr = [] -> files w' = files w) /\
     (forall p, p <> out_path -> files w' !! p = files w !! p)) /\
  (forall c e, (c, Some e) ∈ tr ->
     stage_of c <> StSave -> stage_of c <> StPrint ->
     calls_of StSave tr = [] /\ calls_of StPrint tr = [] /\
     files w' = files w) /\
  (forall c e, (c, Some e) ∈ tr ->
     stage_of c = StLoad \/ stage_of c = StLoadStateDict \/
     in_tracing (stage_of c) = true \/ stage_of c = StConvert \/
     stage_of c = StSave \/ stage_of c = StPrint) /\
  (r = ok tt -> forall c o, (c, o) ∈ tr -> o = None).
Proof.
  intros H tr. subst tr. by_run H.
  all: split; [intros c' e' Hin; in_trace Hin; reflexivity|].
  all: split;
    [intros e' Hl;
     repeat match goal with
     | H1 : fst (torch_load _ _ _ _) = _ |- _ =>
         rewrite Hl in H1; first [discriminate H1 | injection H1 as ->]
     end; reflexivity|].
  all: split;
    [intros e' Hr; first [discriminate Hr | injection Hr as <-];
     (split; [eexists; reflexivity|]);
     (split; [apply app_nil_r|]);
     (split; [intros Hs; first [discriminate Hs | reflexivity]|]);
     intros p Hp; cbn [files after];
     first [reflexivity
           | apply lookup_insert_ne; congruence
           | apply put_file_lookup_ne; congruence]|].
  all: split;
    [intros c' e' Hin Hns Hnp; in_trace Hin;
     first [exfalso; apply Hns; reflexivity
           | exfalso; apply Hnp; reflexivity
           | repeat split]|].
  all: split;
    [intros c' e' Hin; in_trace Hin; cbn [stage_of in_tracing]; tauto|].
  all: intros Hr c' o' Hin; first [discriminate Hr | in_trace Hin; reflexivity].
Qed.

Lemma rand4_example_shape (g g' : Rng) (ex : tensor4 elem) :
  rand4 next_uniform 1 3 64 64 g = (ex, g') -> has_shape (1, 3, 64, 64) ex.
Proof.
  intros H. pose proof (rand4_has_shape next_uniform 1 3 64 64 g) as Hs.
  rewrite H in Hs. exact Hs.
Qed.

Lemma conversion_args_example (g g' : Rng) (ex : tensor4 elem) :
  rand4 next_uniform 1 3 64 64 g = (ex, g') ->
  conversion_args ex =
    mkConvertArgs
      [ImageType "input_image" (1, 3, 64, 64) (1 / 255)%float [0; 0; 0]%Z "RGB"]
      [TensorType "output_image" np_float32]
      ALL.
Proof.
  intros H. unfold conversion_args.
  rewrite (has_shape_shape_of ex 1 3 64 64); [reflexivity | | lia | lia | lia].
  eapply rand4_example_shape. exact H.
Qed.

(** C5: every conversion call of a run declares one input, the image
    "input_image" of shape (1, 3, 64, 64) with scale 1/255, bias [0,0,0] and
    colour layout RGB, and one output, the float32 tensor "output_image"; a
    run makes at most one conversion call, and a run that completes makes
    one. *)
Theorem convert_declares_image_input_tensor_output (w : world) r w' :
  run w = (r, w') ->
  let tr := trace_of w w' in
  let declared :=
    mkConvertArgs
      [ImageType "input_image" (1, 3, 64, 64) (1 / 255)%float [0; 0; 0]%Z "RGB"]
      [TensorType "output_image" np_float32]
      ALL in
  (forall t args o, (CallConvert t args, o) ∈ tr ->
     args = declared /\
     length (inputs args) = 1 /\ length (outputs args) = 1) /\
  length (calls_of StConvert tr) <= 1 /\
  (r = ok tt -> length (calls_of StConvert tr) = 1).
Proof.
  intros H tr declared. subst tr declared. by_run H.
  all: split;
    [intros t args o' Hin; in_trace Hin;
     erewrite conversion_args_example by eassumption;
     repeat split|].
  all: split; [cbn; lia|].
  all: intros Hr; first [discriminate Hr | reflexivity].
Qed.

(** C6: a run makes at most one tracing call; its example input is the
    tensor drawn by [torch.rand(1, 3, 64, 64)] and has that shape; during a
    run the wrapper is executed once, on that example, and the base model
    once, on the example with its channels exchanged; neither is executed on
    anything else. *)
Theorem tracing_runs_wrapper_once (w : world) r w' :
  run w = (r, w') ->
  let tr := trace_of w w' in
  length (calls_of StTrace tr) <= 1 /\
  (forall m ex o, (CallJitTrace m ex, o) ∈ tr ->
     has_shape (1, 3, 64, 64) ex /\
     (exists g2,
        rand4 next_uniform 1 3 64 64 (snd (SRVGGNetCompact_init arch (rng w)))
          = (ex, g2)) /\
     calls_of StTrace tr = [(CallJitTrace m ex, o)] /\
     calls_of StForward tr = [(CallForward ex, o)] /\
     (exists o', calls_of StModel tr = [(CallModel (swap13 ex), o')])) /\
  (forall x o, (CallForward x, o) ∈ tr -> exists m, (CallJitTrace m x, o) ∈ tr) /\
  (forall x o, (CallModel x, o) ∈ tr ->
     exists m ex o', x = swap13 ex /\ (CallJitTrace m ex, o') ∈ tr) /\
  (r = ok tt -> length (calls_of StTrace tr) = 1).
Proof.
  intros H tr. subst tr. by_run H.
  all: split; [cbn; lia|].
  all: split;
    [intros m' ex' o' Hin; in_trace Hin;
     (split; [eapply rand4_example_shape; eassumption|]);
     (split;
       [match goal with
        | Hi : SRVGGNetCompact_init _ _ = _ |- _ => rewrite Hi
        end; eexists; eassumption|]);
     (split; [reflexivity|]); (split; [reflexivity|]);
     eexists; reflexivity|].
  all: split;
    [intros x o' Hin; in_trace Hin; eexists;
     repeat first [apply list_elem_of_here | apply list_elem_of_further]|].
  all: split;
    [intros x o' Hin; in_trace Hin; do 3 eexists; (split; [reflexivity|]);
     repeat first [apply list_elem_of_here | apply list_elem_of_further]|].
  all: intros Hr; first [discriminate Hr | reflexivity].
Qed.

Lemma copy_params_lookup (ps : gmap string (weight elem))
    (d : gmap string (pyval elem)) (k : string) :
  entries_loadable ps d -> dom d = dom ps ->
  d !! k = VTensor <$> (copy_params ps d !! k).
Proof.
  intros Hload Hdom. unfold copy_params. rewrite map_lookup_imap.
  destruct (ps !! k) as [p|] eqn:Hp; simpl.
  - specialize (Hload k p Hp). simpl in Hload.
    destruct (d !! k) as [v|] eqn:Hv.
    + destruct v as [t| |]; simpl in Hload; try discriminate. reflexivity.
    + exfalso. apply not_elem_of_dom in Hv. apply Hv. rewrite Hdom.
      apply elem_of_dom. eauto.
  - apply not_elem_of_dom. rewrite Hdom. apply not_elem_of_dom. exact Hp.
Qed.

Lemma load_state_dict_strict_ok (net net' : Net elem) (sd : pyval elem) :
  load_state_dict net sd true = ok net' ->
  exists d, sd = VDict d /\ dom d = dom (params net) /\
    forall k, d !! k = VTensor <$> (params net' !! k).
Proof.
  unfold load_state_dict. destruct sd as [t|n|d]; try discriminate.
  destruct (bool_decide (entries_loadable (params net) d)) eqn:Hl;
    simpl; [|discriminate].
  destruct (bool_decide (dom (params net) ∖ dom d = ∅ /\
                         dom d ∖ dom (params net) = ∅)) eqn:Hk;
    [|discriminate].
  intros H. injection H as <-. simpl.
  apply bool_decide_eq_true_1 in Hl. apply bool_decide_eq_true_1 in Hk.
  assert (Hdom : dom d = dom (params net)).
  { destruct Hk as [Hm Hu]. apply set_eq. intros k. split; intros Hin.
    - destruct (decide (k ∈ dom (params net))) as [|Hn]; [assumption|].
      exfalso. eapply (not_elem_of_empty (C := gset string) k).
      rewrite <- Hu. apply elem_of_difference. split; assumption.
    - destruct (decide (k ∈ dom d)) as [|Hn]; [assumption|].
      exfalso. eapply (not_elem_of_empty (C := gset string) k).
      rewrite <- Hm. apply elem_of_difference. split; assumption. }
  exists d. split; [reflexivity|]. split; [exact Hdom|].
  intros k. apply copy_params_lookup; assumption.
Qed.

Lemma load_state_dict_strict_keys (net : Net elem) (d : gmap string (pyval elem)) :
  dom d <> dom (params net) ->
  load_state_dict net (VDict d) true =
    raise (RuntimeError "Error(s) in loading state_dict").
Proof.
  intros Hne. unfold load_state_dict.
  destruct (bool_decide (entries_loadable (params net) d)); simpl; [|reflexivity].
  rewrite bool_decide_eq_false_2; [reflexivity|].
  intros [Hm Hu]. apply Hne. apply set_eq. intros k. split; intros Hin.
  - destruct (decide (k ∈ dom (params net))) as [|Hn]; [assumption|].
    exfalso. eapply (not_elem_of_empty (C := gset string) k).
    rewrite <- Hu. apply elem_of_difference. split; assumption.
  - destruct (decide (k ∈ dom d)) as [|Hn]; [assumption|].
    exfalso. eapply (not_elem_of_empty (C := gset string) k).
    rewrite <- Hm. apply elem_of_difference. split; assumption.
Qed.

Ltac same_lhs :=
  repeat match goal with
  | H1 : ?x = _, H2 : ?x = _ |- _ =>
      rewrite H1 in H2;
      first [discriminate H2 | injection H2 as; subst | clear H2]
  end.

(** C10: [load_state_dict] is called with [strict=True]; when the keys of the
    selected state dictionary are not exactly the names of the model's
    parameters the run raises [RuntimeError], writes nothing and traces
    nothing; and the model that is traced has every parameter equal to the
    checkpoint's tensor of that name. *)
Theorem weights_are_loaded_strictly (w : world) r w' :
  run w = (r, w') ->
  let tr := trace_of w w' in
  let ps := fst (SRVGGNetCompact_init arch (rng w)) in
  (forall sd strict o, (CallLoadStateDict sd strict, o) ∈ tr -> strict = true) /\
  (forall ckpt d,
     load_checkpoint w = ok ckpt -> select_state_dict ckpt = ok (VDict d) ->
     dom d <> dom ps ->
     r = raise (RuntimeError "Error(s) in loading state_dict") /\
     files w' = files w /\ calls_of StTrace tr = []) /\
  (forall m ex o, (CallJitTrace m ex, o) ∈ tr ->
     exists ckpt d,
       load_checkpoint w = ok ckpt /\ select_state_dict ckpt = ok (VDict d) /\
       dom d = dom ps /\
       forall k, d !! k = VTensor <$> (params (self_model m) !! k)) /\
  (r = ok tt -> exists m ex, (CallJitTrace m ex, None) ∈ tr).
Proof.
  intros H tr ps. subst tr ps. by_run H.
  all: match goal with
       | Hi : SRVGGNetCompact_init _ _ = _ |- _ => rewrite Hi; cbn [fst]
       end.
  all: split; [intros sd' strict o' Hin; in_trace Hin; reflexivity|].
  all: split;
    [intros ckpt' d' Hld Hsel Hne; same_lhs;
     try match goal with
     | Hl : load_state_dict ?n (VDict ?d0) true = _ |- _ =>
         rewrite (load_state_dict_strict_keys n d0 Hne) in Hl;
         first [discriminate Hl | injection Hl as <-]
     end; repeat split|].
  all: split;
    [intros m' ex' o' Hin; in_trace Hin;
     match goal with
     | Hl : load_state_dict _ _ true = inr _ |- _ =>
         destruct (load_state_dict_strict_ok _ _ _ Hl) as [d0 [-> [Hdom Hk]]]
     end;
     do 2 eexists; repeat split; try eassumption|].
  all: intros Hr; try discriminate Hr.
  do 2 eexists. repeat first [apply list_elem_of_here | apply list_elem_of_further].
Qed.

Lemma load_checkpoint_reads_one_file (w1 w2 : world) :
  files w1 !! ckpt_path = files w2 !! ckpt_path ->
  load_checkpoint w1 = load_checkpoint w2.
Proof. intros H. unfold torch_load. cbn [fst]. rewrite H. reflexivity. Qed.


End ScriptProps.

(** * The properties on the small instance *)

(** The run on [toy_files] completes. *)
Lemma toy_run_completes args :
  fst (toy_script (toy_world args toy_files)) = ok tt.
Proof. vm_compute. reflexivity. Qed.

Lemma RGBWrapper_forward_permutes_witness :
  channels 3 rgb_row /\
  RGBWrapper_forward (Module_call toy_forward (mkNet ∅ false)) rgb_row
    (toy_world [] ∅) =
  (ok (swap13 (swap13 rgb_row)),
   log (CallModel (swap13 rgb_row)) None (toy_world [] ∅)).
Proof.
  assert (H : channels 3 rgb_row) by (repeat constructor).
  split; [exact H|].
  apply (proj2 (proj2 (proj2
    (RGBWrapper_forward_permutes (Module_call toy_forward (mkNet ∅ false))
       rgb_row (toy_world [] ∅) H)))
    (swap13 rgb_row) (log (CallModel (swap13 rgb_row)) None (toy_world [] ∅))).
  - reflexivity.
  - repeat constructor.
Defined.

Lemma permute_210_involution_witness :
  channels 3 rgb_row /\
  RGBWrapper_forward (fun t => mret t) rgb_row (toy_world [] ∅) =
    (ok rgb_row, toy_world [] ∅).
Proof.
  assert (H : channels 3 rgb_row) by (repeat constructor).
  split; [exact H|].
  exact (proj2 (@permute_210_involution N N N N rgb_row H) (toy_world [] ∅)).
Defined.

Lemma permute_210_frame_witness :
  has_shape (1, 4, 1, 1) rgba_pixel /\
  exists y, permute_210 rgba_pixel = ok y /\ has_shape (1, 3, 1, 1) y.
Proof.
  assert (H : has_shape (1, 4, 1, 1) rgba_pixel)
    by (split; [reflexivity | repeat constructor]).
  split; [exact H|].
  destruct (permute_210_frame rgba_pixel 1 4 1 1 H ltac:(lia))
    as [y [E [Hy _]]].
  exists y. split; assumption.
Defined.

(** C9, as stated, fails on a 4-channel input: the indexing succeeds and
    returns 3 channels, so the shape is not kept and the fourth channel is
    dropped. *)
Lemma permute_210_changes_shape_of_rgba :
  has_shape (1, 4, 1, 1) rgba_pixel /\
  permute_210 rgba_pixel = ok [[ [[30%N]]; [[20%N]]; [[10%N]] ]] /\
  ~ has_shape (1, 4, 1, 1) [[ [[30%N]]; [[20%N]]; [[10%N]] ]] /\
  ~ (forall (x y : tensor4 N) (s : nat * nat * nat * nat),
       has_shape s x -> permute_210 x = ok y -> has_shape s y).
Proof.
  assert (Hs : has_shape (1, 4, 1, 1) rgba_pixel)
    by (split; [reflexivity | repeat constructor]).
  assert (Hn : ~ has_shape (1, 4, 1, 1) [[ [[30%N]]; [[20%N]]; [[10%N]] ]]).
  { intros [_ H]. apply Forall_cons_1 in H as [[H _] _]. discriminate H. }
  split; [exact Hs|]. split; [reflexivity|]. split; [exact Hn|].
  intros H. apply Hn. apply (H rgba_pixel _ _ Hs). reflexivity.
Qed.

Lemma select_state_dict_two_layouts_witness :
  select_state_dict (<["params" := VDict toy_state]> (<["epoch" := VInt 3]> ∅)) =
    ok (VDict toy_state).
Proof.
  apply (proj1 (select_state_dict_two_layouts toy_unpickle toy_init toy_forward
                  toy_next toy_convert toy_save toy_encode _)).
  vm_compute. reflexivity.
Defined.

Lemma script_is_linear_pipeline_witness :
  stages (trace_of (toy_world [] toy_files)
            (snd (toy_script (toy_world [] toy_files)))) = pipeline.
Proof.
  pose proof (script_is_linear_pipeline toy_unpickle toy_init toy_forward
                toy_next toy_convert toy_save toy_encode (toy_world [] toy_files)
                _ _ (surjective_pairing _)) as H.
  apply (proj1 (proj2 (proj2 H))). apply toy_run_completes.
Defined.

Lemma script_propagates_errors_witness :
  fst (toy_script (toy_world [] ∅)) = raise (FileNotFoundError ckpt_path) /\
  files (snd (toy_script (toy_world [] ∅))) = ∅.
Proof.
  assert (Hr : fst (toy_script (toy_world [] ∅)) =
               raise (FileNotFoundError ckpt_path))
    by (vm_compute; reflexivity).
  split; [exact Hr|].
  pose proof (script_propagates_errors toy_unpickle toy_init toy_forward
                toy_next toy_convert toy_save toy_encode (toy_world [] ∅)
                _ _ (surjective_pairing _)) as H.
  destruct (proj1 (proj2 (proj2 H)) _ Hr) as [_ [_ [Hf _]]].
  apply Hf. vm_compute. reflexivity.
Defined.

Lemma convert_declares_image_input_tensor_output_witness :
  length (calls_of StConvert
            (trace_of (toy_world [] toy_files)
               (snd (toy_script (toy_world [] toy_files))))) = 1.
Proof.
  pose proof (convert_declares_image_input_tensor_output toy_unpickle toy_init
                toy_forward toy_next toy_convert toy_save toy_encode
                (toy_world [] toy_files) _ _ (surjective_pairing _)) as H.
  apply (proj2 (proj2 H)). apply toy_run_completes.
Defined.

Lemma tracing_runs_wrapper_once_witness :
  length (calls_of StTrace
            (trace_of (toy_world [] toy_files)
               (snd (toy_script (toy_world [] toy_files))))) = 1.
Proof.
  pose proof (tracing_runs_wrapper_once toy_unpickle toy_init toy_forward
                toy_next toy_convert toy_save toy_encode (toy_world [] toy_files)
                _ _ (surjective_pairing _)) as H.
  apply (proj2 (proj2 (proj2 (proj2 H)))). apply toy_run_completes.
Defined.



Lemma weights_are_loaded_strictly_witness :
  fst (toy_script (toy_world [] {[ckpt_path := [Byte.x01; Byte.x02; Byte.x03]]})) =
    raise (RuntimeError "Error(s) in loading state_dict").
Proof.
  pose proof (weights_are_loaded_strictly toy_unpickle toy_init toy_forward
                toy_next toy_convert toy_save toy_encode
                (toy_world [] {[ckpt_path := [Byte.x01; Byte.x02; Byte.x03]]})
                _ _ (surjective_pairing _)) as H.
  apply (proj1 (proj2 H)
           (<["params" := VDict (<["extra" := VTensor toy_weight]> toy_state)]> ∅)
           (<["extra" := VTensor toy_weight]> toy_state)).
  - vm_compute. reflexivity.
  - vm_compute. reflexivity.
  - apply (bool_decide_unpack _). vm_compute. exact I.
Defined.

(** * Further properties *)

(** ** The wrapper on other inputs *)

Lemma gather_210_short {A} (img : list A) :
  length img < 3 -> gather [2; 1; 0] img = raise IndexError.
Proof.
  destruct img as [|c0 [|c1 [|c2 img]]]; simpl; intros H;
    try reflexivity; lia.
Qed.

Lemma gather_210_ok {A} (img img' : list A) :
  gather [2; 1; 0] img = inr img' -> 3 <= length img /\ length img' = 3.
Proof.
  destruct img as [|c0 [|c1 [|c2 img]]]; simpl; intros H;
    try discriminate H.
  injection H as <-. simpl. split; [lia | reflexivity].
Qed.

Lemma gather_210_take {A} (img : list A) :
  gather [2; 1; 0] (take 3 img) = gather [2; 1; 0] img.
Proof. destruct img as [|c0 [|c1 [|c2 img]]]; reflexivity. Qed.

Lemma mapR_map {A B C} (f : B -> result C) (g : A -> B) (l : list A) :
  mapR f (map g l) = mapR (fun a => f (g a)) l.
Proof.
  induction l as [|a l IH]; simpl; [reflexivity|]. rewrite IH. reflexivity.
Qed.

Lemma mapR_ext {A B} (f g : A -> result B) (l : list A) :
  (forall a, f a = g a) -> mapR f l = mapR g l.
Proof.
  intros H. induction l as [|a l IH]; simpl; [reflexivity|].
  rewrite H, IH. reflexivity.
Qed.

Lemma mapR_natural {A B A' B'} (f : A -> result B) (f' : A' -> result B')
    (g : A -> A') (h : B -> B') (l : list A) :
  (forall a, f' (g a) = match f a with inl e => inl e | inr b => inr (h b) end) ->
  mapR f' (map g l) = match mapR f l with inl e => inl e | inr bs => inr (map h bs) end.
Proof.
  intros H. induction l as [|a l IH]; simpl; [reflexivity|].
  rewrite H, IH. destruct (f a) as [e|b]; simpl; [reflexivity|].
  destruct (mapR f l) as [e|bs]; reflexivity.
Qed.

Lemma getitem_channels_short {A} (x : tensor4 A) :
  x <> [] -> Forall (fun img : list (list (list A)) => length img < 3) x ->
  getitem_channels x [2; 1; 0] = raise IndexError.
Proof.
  intros Hne Hx. destruct x as [|img x]; [congruence|].
  apply Forall_cons_1 in Hx as [Himg _].
  unfold getitem_channels. cbn [mapR].
  rewrite (gather_210_short img Himg). reflexivity.
Qed.

Lemma getitem_channels_ok {A} (x y : tensor4 A) :
  getitem_channels x [2; 1; 0] = inr y ->
  channels 3 y /\ length y = length x /\
  Forall (fun img : list (list (list A)) => 3 <= length img) x.
Proof.
  unfold getitem_channels, channels. revert y.
  induction x as [|img x IH]; intros y H; simpl in H.
  - injection H as <-. repeat split; constructor.
  - destruct (gather [2; 1; 0] img) as [e|img'] eqn:E; simpl in H; [discriminate|].
    destruct (mapR (gather [2; 1; 0]) x) as [e|y'] eqn:E'; simpl in H; [discriminate|].
    injection H as <-. destruct (IH y' eq_refl) as [H1 [H2 H3]].
    destruct (gather_210_ok _ _ E) as [G1 G2].
    split; [constructor; assumption|]. split; [simpl; congruence|].
    constructor; assumption.
Qed.

Lemma has_shape_narrow {A} (x : tensor4 A) (n c h w : nat) :
  has_shape (n, c, h, w) x -> 0 < n -> c < 3 ->
  x <> [] /\ Forall (fun img : list (list (list A)) => length img < 3) x.
Proof.
  intros [Hn Hx] Pn Pc. split.
  - intros ->. simpl in Hn. lia.
  - eapply Forall_impl; [exact Hx|]. intros img [Hc _]. lia.
Qed.

Section WrapperMore.

Context {elem Rng Ent MLModel : Type}.

#[local] Abbreviation world := (World elem Rng Ent MLModel).
#[local] Abbreviation comp := (@M elem Rng Ent MLModel).

Lemma RGBWrapper_forward_unfold (model : tensor4 elem -> comp (tensor4 elem))
    (x : tensor4 elem) (w : world) :
  RGBWrapper_forward model x w =
    match getitem_channels x [2; 1; 0] with
    | inl e => (inl e, w)
    | inr x' =>
        match model x' w with
        | (inl e, w') => (inl e, w')
        | (inr out, w') => (getitem_channels out [2; 1; 0], w')
        end
    end.
Proof.
  unfold RGBWrapper_forward, contiguous, mbind, M_bind, liftR, mret, M_ret.
  destruct (getitem_channels x [2; 1; 0]) as [e|x']; [reflexivity|].
  destruct (model x' w) as [[e|out] w']; [reflexivity|].
  destruct (getitem_channels out [2; 1; 0]); reflexivity.
Qed.

(** X1: on a non-empty batch with fewer than 3 channels the first indexing
    of [forward] raises [IndexError]: the base model is not called and the
    world is left as it was. *)
Theorem RGBWrapper_forward_rejects_narrow_input
    (model : tensor4 elem -> comp (tensor4 elem)) (x : tensor4 elem)
    (n c h w0 : nat) (w : world) :
  has_shape (n, c, h, w0) x -> 0 < n -> 0 < h -> 0 < w0 -> c < 3 ->
  permute_210 x = raise IndexError /\
  RGBWrapper_forward model x w = (raise IndexError, w).
Proof.
  intros Hs Pn _ _ Pc. destruct (has_shape_narrow x n c h w0 Hs Pn Pc) as [Hne Hx].
  pose proof (getitem_channels_short x Hne Hx) as E.
  split; [exact E|]. rewrite RGBWrapper_forward_unfold, E. reflexivity.
Qed.

(** X2: when the base model returns a non-empty batch with fewer than 3
    channels, the second indexing of [forward] raises [IndexError], in the
    world the base model left. *)
Theorem RGBWrapper_forward_rejects_narrow_output
    (model : tensor4 elem -> comp (tensor4 elem)) (x x' out : tensor4 elem)
    (n c h w0 : nat) (w w' : world) :
  permute_210 x = ok x' -> model x' w = (ok out, w') ->
  has_shape (n, c, h, w0) out -> 0 < n -> 0 < h -> 0 < w0 -> c < 3 ->
  RGBWrapper_forward model x w = (raise IndexError, w').
Proof.
  intros Hx Hm Hs Pn _ _ Pc.
  destruct (has_shape_narrow out n c h w0 Hs Pn Pc) as [Hne Ho].
  unfold permute_210 in Hx.
  rewrite RGBWrapper_forward_unfold, Hx, Hm, (getitem_channels_short out Hne Ho).
  reflexivity.
Qed.

(** X3: [forward] reads the first three channels only: an input and the
    same input cut down to its first three channels are indexed to the same
    tensor and give the same run of the wrapper. *)
Theorem RGBWrapper_forward_ignores_extra_channels
    (model : tensor4 elem -> comp (tensor4 elem)) (x : tensor4 elem) (w : world) :
  permute_210 (map (take 3) x) = permute_210 x /\
  RGBWrapper_forward model (map (take 3) x) w = RGBWrapper_forward model x w.
Proof.
  assert (E : getitem_channels (map (take 3) x) [2; 1; 0] =
              getitem_channels x [2; 1; 0]).
  { unfold getitem_channels. rewrite mapR_map. apply mapR_ext.
    intros img. apply gather_210_take. }
  split; [exact E|]. rewrite !RGBWrapper_forward_unfold, E. reflexivity.
Qed.

(** X4: a [forward] that returns has run the base model on a
    3-channel batch as long as the input; what it returns has 3 channels,
    is as long as the base model's output and holds that output's channels
    2, 1, 0 in this order. *)
Theorem RGBWrapper_forward_returns_three_channels
    (model : tensor4 elem -> comp (tensor4 elem)) (x y : tensor4 elem)
    (w w' : world) :
  RGBWrapper_forward model x w = (ok y, w') ->
  channels 3 y /\
  exists x' out,
    permute_210 x = ok x' /\ channels 3 x' /\ length x' = length x /\
    model x' w = (ok out, w') /\
    permute_210 out = ok y /\ length y = length out /\
    forall b k i j,
      at4 y b k i j =
        match [2; 1; 0] !! k with
        | Some k' => at4 out b k' i j
        | None => None
        end.
Proof.
  rewrite RGBWrapper_forward_unfold.
  destruct (getitem_channels x [2; 1; 0]) as [e|x'] eqn:Hx; [discriminate|].
  destruct (model x' w) as [[e|out] w1] eqn:Hm; [discriminate|].
  intros H. injection H as Hy <-.
  destruct (getitem_channels_ok _ _ Hx) as [Cx [Lx _]].
  destruct (getitem_channels_ok _ _ Hy) as [Cy [Ly _]].
  split; [exact Cy|]. exists x', out. repeat split; try assumption.
  intros b k i j. apply getitem_channels_at4. exact Hy.
Qed.

(** X5: the base model is only ever called on 3-channel batches as long as
    the input: two base models that agree on those give the same run of the
    wrapper. *)
Theorem RGBWrapper_forward_calls_model_on_rgb_only
    (m1 m2 : tensor4 elem -> comp (tensor4 elem)) (x : tensor4 elem) (w : world) :
  (forall t, channels 3 t -> length t = length x -> m1 t w = m2 t w) ->
  RGBWrapper_forward m1 x w = RGBWrapper_forward m2 x w.
Proof.
  intros H. rewrite !RGBWrapper_forward_unfold.
  destruct (getitem_channels x [2; 1; 0]) as [e|x'] eqn:Hx; [reflexivity|].
  destruct (getitem_channels_ok _ _ Hx) as [Cx [Lx _]].
  rewrite (H x' Cx Lx). reflexivity.
Qed.

(** X6: wrapping twice cancels.  On a 3-channel input, the wrapper around
    the wrapper around a base model whose output has 3 channels runs as the
    base model itself: same result, same world, raising included. *)
Theorem RGBWrapper_twice_is_base_model
    (model : tensor4 elem -> comp (tensor4 elem)) (x : tensor4 elem) (w : world) :
  channels 3 x ->
  (forall out w', model x w = (ok out, w') -> channels 3 out) ->
  RGBWrapper_forward (RGBWrapper_forward model) x w = model x w.
Proof.
  intros Hx Hout.
  rewrite (RGBWrapper_forward_unfold (RGBWrapper_forward model)).
  rewrite (getitem_channels_swap13 x Hx).
  rewrite (RGBWrapper_forward_unfold model).
  rewrite (getitem_channels_swap13 (swap13 x) (swap13_channels x Hx)).
  rewrite swap13_involutive.
  destruct (model x w) as [[e|out] w'] eqn:Hm; [reflexivity|].
  specialize (Hout out w' eq_refl).
  rewrite (getitem_channels_swap13 out Hout).
  rewrite (getitem_channels_swap13 (swap13 out) (swap13_channels out Hout)).
  rewrite swap13_involutive. reflexivity.
Qed.

End WrapperMore.

(** X7: the channel indexing moves elements without reading them: it
    commutes with any element-wise map, such as the scaling by 1/255 the
    converted model applies to its image input, raising included. *)
Theorem permute_210_commutes_with_map4 {A B} (f : A -> B) (x : tensor4 A) :
  permute_210 (map4 f x) =
    match permute_210 x with
    | inl e => inl e
    | inr y => inr (map4 f y)
    end.
Proof.
  unfold permute_210, getitem_channels, map4.
  apply mapR_natural. intros img.
  destruct img as [|c0 [|c1 [|c2 img]]]; reflexivity.
Qed.

(** ** Further runs of the script *)

Section ScriptMore.

Context {elem Rng Ent MLModel : Type}.
Variable unpickle : bytes -> result (gmap string (pyval elem)).
Variable SRVGGNetCompact_init : ArchCfg -> Rng -> gmap string (weight elem) * Rng.
Variable SRVGGNetCompact_forward : Net elem -> tensor4 elem -> result (tensor4 elem).
Variable next_uniform : Rng -> elem * Rng.
Variable coreml_convert : Traced elem -> ConvertArgs -> Ent -> result MLModel * Ent.
Variable coreml_save : MLModel -> option bytes -> Ent -> (Exn * option bytes + bytes) * Ent.
Variable stdout_encode : gmap string string -> string -> result bytes.

#[local] Abbreviation world := (World elem Rng Ent MLModel).
#[local] Abbreviation run :=
  (script unpickle SRVGGNetCompact_init SRVGGNetCompact_forward next_uniform
          coreml_convert coreml_save stdout_encode).
#[local] Abbreviation Runs :=
  (Run unpickle SRVGGNetCompact_init SRVGGNetCompact_forward next_uniform
       coreml_convert coreml_save stdout_encode).
#[local] Abbreviation load_checkpoint w :=
  (fst (torch_load unpickle ckpt_path "cpu" w)).

Ltac in_trace H :=
  repeat (apply elem_of_cons in H as [H|H]);
  try (apply elem_of_nil in H; destruct H);
  try discriminate H;
  try (injection H as; subst).

Ltac by_run H :=
  apply script_run_eq in H; destruct H; rewrite ?trace_of_after.

Lemma load_checkpoint_missing (w : world) :
  files w !! ckpt_path = None ->
  load_checkpoint w = raise (FileNotFoundError ckpt_path).
Proof. intros H. unfold torch_load. cbn [fst]. rewrite H. reflexivity. Qed.

(** X8: the completion line is printed exactly when the run completes, and
    it is the only line the script prints.  The print is the last call of a
    run, made after the save has returned, with the package in place; its
    outcome is that of encoding the line for standard output under the
    run's environment, and when it raises the run ends with that exception,
    prints nothing and leaves the package written. *)
Theorem script_prints_on_completion_only (w : world) r w' :
  run w = (r, w') ->
  let tr := trace_of w w' in
  (r = ok tt <-> stdout w' = stdout w ++ [done_line]) /\
  (r <> ok tt -> stdout w' = stdout w) /\
  (forall line o, (CallPrint line, o) ∈ tr ->
     line = done_line /\
     o = raised (stdout_encode (environ w) done_line) /\
     (o = None <-> r = ok tt) /\
     (forall e, o = Some e -> r = raise e) /\
     last tr = Some (CallPrint done_line, o) /\
     (exists mlmodel, (CallSave mlmodel out_path, None) ∈ tr) /\
     is_Some (files w' !! out_path)).
Proof.
  intros H tr. subst tr. by_run H.
  all: cbn [stdout files after].
  all: split;
    [split; intros Heq;
     first [discriminate Heq | reflexivity
           | apply app_inv_head in Heq; discriminate Heq]|].
  all: split;
    [intros Hne; first [apply app_nil_r | exfalso; apply Hne; reflexivity]|].
  all: intros line o' Hin; in_trace Hin.
  all: split; [reflexivity|].
  all: split;
    [match goal with
     | He : stdout_encode _ _ = _ |- _ => rewrite He
     end; reflexivity|].
  all: split;
    [split; intros Heq; first [discriminate Heq | reflexivity]|].
  all: split;
    [intros e' Heq; first [discriminate Heq | injection Heq as <-; reflexivity]|].
  all: split; [reflexivity|].
  all: split;
    [eexists;
     repeat first [apply list_elem_of_here | apply list_elem_of_further]|].
  all: rewrite lookup_insert_eq; eauto.
Qed.

(** X9: without a file at the checkpoint path the run raises
    [FileNotFoundError] for that path at the load; the model has been
    constructed before, so the generator has advanced; nothing else is
    called, written or printed. *)
Theorem script_without_checkpoint (w : world) r w' :
  run w = (r, w') -> files w !! ckpt_path = None ->
  r = raise (FileNotFoundError ckpt_path) /\
  trace_of w w' =
    [(CallSRVGGNetCompact arch, None);
     (CallTorchLoad ckpt_path "cpu", Some (FileNotFoundError ckpt_path))] /\
  rng w' = snd (SRVGGNetCompact_init arch (rng w)) /\
  files w' = files w /\ stdout w' = stdout w.
Proof.
  intros H Hnone. pose proof (load_checkpoint_missing w Hnone) as Hl.
  by_run H;
    match goal with
    | H1 : fst (torch_load _ _ _ _) = _ |- _ =>
        rewrite Hl in H1; first [discriminate H1 | injection H1 as <-]
    end.
  match goal with
  | Hi : SRVGGNetCompact_init _ _ = _ |- _ => rewrite Hi
  end.
  repeat split. apply app_nil_r.
Qed.

Ltac same_lhs :=
  repeat match goal with
  | H1 : ?x = _, H2 : ?x = _ |- _ =>
      rewrite H1 in H2;
      first [discriminate H2 | injection H2 as; subst | clear H2]
  end.

(** X10: a run leaves its checkpoint file as it was, and what a second run
    hands to the converter is what the first run handed to it.  For a second
    run that starts with the checkpoint file the first run left and from the
    generator state the first run started with, whatever its random source,
    environment and other files, every statement before the conversion makes
    the same calls with the same outcomes, and the conversion is called with
    the same traced model and the same arguments. *)
Theorem script_rerun_converts_same_model (w w2 : world) r w' r2 w2' :
  run w = (r, w') -> run w2 = (r2, w2') ->
  files w2 !! ckpt_path = files w' !! ckpt_path -> rng w2 = rng w ->
  let tr := trace_of w w' in
  let tr2 := trace_of w2 w2' in
  files w' !! ckpt_path = files w !! ckpt_path /\
  (forall st, st <> StConvert -> st <> StSave -> st <> StPrint ->
     calls_of st tr2 = calls_of st tr) /\
  map fst (calls_of StConvert tr2) = map fst (calls_of StConvert tr).
Proof.
  intros H1 H2 Hf Hr tr tr2. subst tr tr2.
  apply script_run_eq in H1. apply script_run_eq in H2.
  assert (Hc : files w' !! ckpt_path = files w !! ckpt_path).
  { destruct H1; cbn [files after]; try reflexivity;
      first [apply lookup_insert_ne | apply put_file_lookup_ne]; discriminate. }
  rewrite Hc in Hf. split; [exact Hc|]. clear Hc.
  pose proof (load_checkpoint_reads_one_file unpickle w2 w Hf) as Hl.
  destruct H1; destruct H2; rewrite ?trace_of_after;
    try rewrite Hr in *; try rewrite Hl in *; same_lhs.
  all: split; [|reflexivity].
  all: intros st N1 N2 N3; destruct st; try reflexivity; congruence.
Qed.

(** X12: a base network whose outputs have fewer than 3 channels is never
    converted: no run completes, none reaches the conversion or writes a
    file, and a run in which the network returns raises [IndexError] from
    the wrapper. *)
Theorem script_rejects_narrow_network (w : world) r w' :
  run w = (r, w') ->
  (forall net x out, SRVGGNetCompact_forward net x = ok out ->
     exists n c h w0,
       has_shape (n, c, h, w0) out /\ 0 < n /\ 0 < h /\ 0 < w0 /\ c < 3) ->
  let tr := trace_of w w' in
  r <> ok tt /\
  calls_of StConvert tr = [] /\
  files w' = files w /\
  (forall x, (CallModel x, None) ∈ tr ->
     r = raise IndexError /\
     calls_of StForward tr = [(CallForward (swap13 x), Some IndexError)]).
Proof.
  intros H Hnarrow tr. subst tr. by_run H.
  all: try match goal with
       | Hfw : SRVGGNetCompact_forward _ _ = inr ?out,
         Hp : permute_210 ?out = _ |- _ =>
           destruct (Hnarrow _ _ _ Hfw) as [n [c [h [w0 [Hs [Pn [_ [_ Pc]]]]]]]];
           destruct (has_shape_narrow out n c h w0 Hs Pn Pc) as [Hne Ho];
           unfold permute_210 in Hp;
           rewrite (getitem_channels_short out Hne Ho) in Hp;
           first [discriminate Hp | injection Hp as <-]
       end.
  all: split; [discriminate|]; split; [reflexivity|]; split; [reflexivity|].
  all: intros x Hin; in_trace Hin.
  split; [reflexivity|]. cbn. rewrite swap13_involutive. reflexivity.
Qed.

Lemma swap13_has_shape (x : tensor4 elem) (n h w0 : nat) :
  has_shape (n, 3, h, w0) x -> has_shape (n, 3, h, w0) (swap13 x).
Proof.
  intros Hs.
  destruct (getitem_channels_shape [2; 1; 0] x n 3 h w0) as [y [E Hy]];
    [repeat constructor; lia | exact Hs |].
  rewrite (getitem_channels_swap13 x (has_shape_channels _ _ _ _ _ Hs)) in E.
  injection E as <-. exact Hy.
Qed.

(** X13: the three places that fix the input shape agree.  The batch the
    base network is called on during tracing has shape
    (1, num_in_ch, 64, 64) for the [num_in_ch] the network was constructed
    with, and that is the shape of the image input declared to the
    converter; a run that completes has called the network. *)
Theorem network_input_matches_architecture (w : world) r w' :
  run w = (r, w') ->
  let tr := trace_of w w' in
  (forall x o, (CallModel x, o) ∈ tr ->
     (forall cfg o', (CallSRVGGNetCompact cfg, o') ∈ tr ->
        has_shape (1, num_in_ch cfg, 64, 64) x) /\
     (forall t args o' name shape scale bias layout,
        (CallConvert t args, o') ∈ tr ->
        ImageType name shape scale bias layout ∈ inputs args ->
        has_shape shape x)) /\
  (r = ok tt -> exists x, (CallModel x, None) ∈ tr).
Proof.
  intros H tr. subst tr. by_run H.
  all: split;
    [intros x o' Hin; in_trace Hin;
     match goal with
     | Hr : rand4 _ 1 3 64 64 _ = (?ex, _) |- _ =>
         pose proof (rand4_example_shape _ _ _ _ Hr) as Hex;
         pose proof (swap13_has_shape _ _ _ _ Hex) as Hsw
     end;
     (split;
       [intros cfg o2 Hin2; in_trace Hin2; exact Hsw
       |intros t args o2 name shape scale bias layout Hin2 Hin3;
        in_trace Hin2; cbn [inputs conversion_args] in Hin3; in_trace Hin3;
        rewrite (has_shape_shape_of _ 1 3 64 64 Hex) by lia; exact Hsw])|].
  all: intros Hr; try discriminate Hr.
  eexists. repeat first [apply list_elem_of_here | apply list_elem_of_further].
Qed.

End ScriptMore.

(** ** The further properties on the small instance *)

Lemma RGBWrapper_forward_rejects_narrow_input_witness :
  has_shape (1, 2, 1, 1) duo_pixel /\
  RGBWrapper_forward strict_rgb_model duo_pixel (toy_world [] ∅) =
    (raise IndexError, toy_world [] ∅).
Proof.
  assert (H : has_shape (1, 2, 1, 1) duo_pixel)
    by (split; [reflexivity | repeat constructor]).
  split; [exact H|].
  apply (proj2 (RGBWrapper_forward_rejects_narrow_input strict_rgb_model
                  duo_pixel 1 2 1 1 (toy_world [] ∅) H
                  ltac:(lia) ltac:(lia) ltac:(lia) ltac:(lia))).
Defined.

Lemma RGBWrapper_forward_rejects_narrow_output_witness :
  has_shape (1, 2, 1, 1) duo_pixel /\
  RGBWrapper_forward (fun _ => mret duo_pixel) rgb_row (toy_world [] ∅) =
    (raise IndexError, toy_world [] ∅).
Proof.
  assert (H : has_shape (1, 2, 1, 1) duo_pixel)
    by (split; [reflexivity | repeat constructor]).
  split; [exact H|].
  apply (RGBWrapper_forward_rejects_narrow_output (fun _ => mret duo_pixel)
           rgb_row (swap13 rgb_row) duo_pixel 1 2 1 1
           (toy_world [] ∅) (toy_world [] ∅)).
  - reflexivity.
  - reflexivity.
  - exact H.
  - lia.
  - lia.
  - lia.
  - lia.
Defined.

Lemma RGBWrapper_forward_returns_three_channels_witness :
  channels 3 [[ [[10%N]]; [[20%N]]; [[30%N]] ]].
Proof.
  assert (H : RGBWrapper_forward (fun t => mret t) rgba_pixel (toy_world [] ∅) =
              (ok [[ [[10%N]]; [[20%N]]; [[30%N]] ]], toy_world [] ∅))
    by reflexivity.
  exact (proj1 (RGBWrapper_forward_returns_three_channels _ _ _ _ _ H)).
Defined.

Lemma RGBWrapper_forward_calls_model_on_rgb_only_witness :
  RGBWrapper_forward (fun t => mret t) rgba_pixel (toy_world [] ∅) =
  RGBWrapper_forward strict_rgb_model rgba_pixel (toy_world [] ∅).
Proof.
  apply (RGBWrapper_forward_calls_model_on_rgb_only (fun t => mret t)
           strict_rgb_model rgba_pixel (toy_world [] ∅)).
  intros t Hc Hl.
  destruct t as [|img [|img' t]]; try discriminate Hl.
  apply Forall_cons_1 in Hc as [Hc _].
  destruct img as [|c0 [|c1 [|c2 [|c3 img]]]]; try discriminate Hc.
  reflexivity.
Defined.

Lemma RGBWrapper_twice_is_base_model_witness :
  channels 3 rgb_row /\
  RGBWrapper_forward
    (RGBWrapper_forward (Module_call toy_forward (mkNet ∅ false)))
    rgb_row (toy_world [] ∅) =
  Module_call toy_forward (mkNet ∅ false) rgb_row (toy_world [] ∅).
Proof.
  assert (H : channels 3 rgb_row) by (repeat constructor).
  split; [exact H|].
  apply (RGBWrapper_twice_is_base_model
           (Module_call toy_forward (mkNet ∅ false)) rgb_row (toy_world [] ∅) H).
  intros out w' E. injection E as <- _. exact H.
Defined.

Lemma script_prints_on_completion_only_witness :
  stdout (snd (toy_script (toy_world [] toy_files))) = [done_line].
Proof.
  pose proof (script_prints_on_completion_only toy_unpickle toy_init
                toy_forward toy_next toy_convert toy_save toy_encode
                (toy_world [] toy_files) _ _ (surjective_pairing _)) as H.
  apply (proj1 (proj1 H)). apply toy_run_completes.
Defined.

Lemma script_without_checkpoint_witness :
  fst (toy_script (toy_world ["--help"] ∅)) =
    raise (FileNotFoundError ckpt_path).
Proof.
  pose proof (script_without_checkpoint toy_unpickle toy_init toy_forward
                toy_next toy_convert toy_save toy_encode (toy_world ["--help"] ∅)
                _ _ (surjective_pairing _)) as H.
  apply H. reflexivity.
Defined.

Lemma script_rerun_converts_same_model_witness :
  map fst (calls_of StConvert
             (trace_of (mkWorld ["again"] ∅ toy_files 0%N 7%N [] [])
                (snd (toy_script (mkWorld ["again"] ∅ toy_files 0%N 7%N [] []))))) =
  map fst (calls_of StConvert
             (trace_of (toy_world [] toy_files)
                (snd (toy_script (toy_world [] toy_files))))).
Proof.
  pose proof (script_rerun_converts_same_model toy_unpickle toy_init toy_forward
                toy_next toy_convert toy_save toy_encode
                (toy_world [] toy_files)
                (mkWorld ["again"] ∅ toy_files 0%N 7%N [] []) _ _ _ _
                (surjective_pairing _) (surjective_pairing _)) as H.
  apply H.
  - vm_compute. reflexivity.
  - reflexivity.
Defined.

Lemma script_rejects_narrow_network_witness :
  fst (duo_script (toy_world [] toy_files)) <> ok tt.
Proof.
  pose proof (script_rejects_narrow_network toy_unpickle toy_init duo_forward
                toy_next toy_convert toy_save toy_encode (toy_world [] toy_files)
                _ _ (surjective_pairing _)) as H.
  apply H. intros net x out E. injection E as <-.
  exists 1, 2, 1, 1. split; [split; [reflexivity | repeat constructor]|].
  repeat split; lia.
Defined.

Lemma network_input_matches_architecture_witness :
  exists x,
    (CallModel x, None) ∈
      trace_of (toy_world [] toy_files) (snd (toy_script (toy_world [] toy_files))).
Proof.
  pose proof (network_input_matches_architecture toy_unpickle toy_init
                toy_forward toy_next toy_convert toy_save toy_encode
                (toy_world [] toy_files) _ _ (surjective_pairing _)) as H.
  apply (proj2 H). apply toy_run_completes.
Defined.
